(** * prisma-multivariate: record normalisation, citation keys, de-duplication

    A shallow embedding of the core of [scripts/utils/api_utils.py] and
    [scripts/utils/record_standardisations.py]:

    - [validate_paper_entry]   raw entry  ->  canonical paper record
    - [clean_bibtex_key]       citation key derivation against a key registry
    - [paper_to_bibtex], [save_bibtex]     the bibliography sink
    - [save_results_to_csv]    the tabular sink with its DOI de-duplication
    - [remove_duplicates]      the title-similarity pass
    - [screen_titles_abstracts]            screening by key words
    - [validate_api_response], [make_api_request]   the HTTP layer

    and of the drivers that call them: [validate_scopus_paper_entry] and
    the loop over the entries of a page of [getScopus.py],
    [validate_dblp_paper_entry], the loop over the hits and the steps
    with which [get_dblp_venue] of [getDBLP.py] ends.

    Conventions of the embedding.
    - Python [str] is [string]; the character classes ([\w], [\s],
      [str.isspace], [str.lower]) are the ASCII ones, so the statements
      speak about ASCII text.
    - Python [int] is [Z]; a [float] is a rational [Q] or one of [inf],
      [-inf] and [nan]. [int()] of a string is that of CPython with its
      limit of 4300 digits.
    - A raised exception is a value [Raise e] of [result]; [try]/[except]
      is [try_except].
    - A Python [set] of keys is a [gset string].
    - The scikit-learn calls of [remove_duplicates] are a parameter of the
      section that embeds it.
    - The network is the list of the answers to the requests of a call,
      one for each [session.get]; [raise_for_status] of the library is a
      parameter, and [time.sleep] is recorded as the list of its
      arguments. *)

From Stdlib Require Import ZArith QArith Ascii String.
From stdpp Require Import gmap strings list pretty.

(** ** Python built-ins on strings *)

Module Py.

(** [str.isspace] on one ASCII character; also the class [\s] of [re]
    and the set removed by [str.strip()] and split on by [str.split()]. *)
Definition is_space (c : ascii) : bool :=
  let n := nat_of_ascii c in
  ((9 <=? n) && (n <=? 13)) || ((28 <=? n) && (n <=? 32)).

Definition is_digit (c : ascii) : bool :=
  let n := nat_of_ascii c in (48 <=? n) && (n <=? 57).

Definition is_upper (c : ascii) : bool :=
  let n := nat_of_ascii c in (65 <=? n) && (n <=? 90).

Definition is_lower (c : ascii) : bool :=
  let n := nat_of_ascii c in (97 <=? n) && (n <=? 122).

Definition is_alnum (c : ascii) : bool :=
  is_digit c || is_upper c || is_lower c.

(** The class [\w] of [re]: letters, digits and the underscore. *)
Definition is_word (c : ascii) : bool :=
  is_alnum c || bool_decide (c = "_"%char).

Definition lower_char (c : ascii) : ascii :=
  if is_upper c then ascii_of_nat (nat_of_ascii c + 32) else c.

(** [s.lower()] *)
Fixpoint lower (s : string) : string :=
  match s with
  | EmptyString => EmptyString
  | String c s' => String (lower_char c) (lower s')
  end.

(** [re.sub('[^...]', '', s)]: keep the characters of the class. *)
Fixpoint keep (cls : ascii → bool) (s : string) : string :=
  match s with
  | EmptyString => EmptyString
  | String c s' => if cls c then String c (keep cls s') else keep cls s'
  end.

(** [s.lstrip(chars)], [s.rstrip(chars)], with the set as a predicate. *)
Fixpoint lstrip (cls : ascii → bool) (s : string) : string :=
  match s with
  | EmptyString => EmptyString
  | String c s' => if cls c then lstrip cls s' else s
  end.

Fixpoint rstrip (cls : ascii → bool) (s : string) : string :=
  match s with
  | EmptyString => EmptyString
  | String c s' =>
      match rstrip cls s' with
      | EmptyString => if cls c then EmptyString else String c EmptyString
      | r => String c r
      end
  end.

(** [s.strip()] *)
Definition strip (s : string) : string := rstrip is_space (lstrip is_space s).

(** [s.split(sep)] for a one-character separator and
    [re.split('[...]', s)] for a character class: empty pieces are kept
    and the result is never empty. *)
Fixpoint split_on (sep : ascii → bool) (s : string) : list string :=
  match s with
  | EmptyString => [EmptyString]
  | String c s' =>
      if sep c then EmptyString :: split_on sep s'
      else match split_on sep s' with
           | piece :: rest => String c piece :: rest
           | [] => [String c EmptyString]
           end
  end.

(** [s.split()]: the maximal runs of non-space characters. *)
Fixpoint split_ws (s : string) : list string :=
  match s with
  | EmptyString => []
  | String c s' =>
      if is_space c then split_ws s'
      else match s' with
           | EmptyString => [String c EmptyString]
           | String c' _ =>
               if is_space c' then String c EmptyString :: split_ws s'
               else match split_ws s' with
                    | w :: ws => String c w :: ws
                    | [] => [String c EmptyString]
                    end
           end
  end.

(** [s[:k]] for a non-negative [k]. *)
Fixpoint take (k : nat) (s : string) : string :=
  match k, s with
  | S k', String c s' => String c (take k' s')
  | _, _ => EmptyString
  end.

(** [s[:k]] for any integer [k]: a negative [k] counts from the end. *)
Definition slice_to (s : string) (k : Z) : string :=
  if (k <? 0)%Z then take (Z.to_nat (Z.of_nat (String.length s) + k)) s
  else take (Z.to_nat k) s.

(** [s[i:]] *)
Fixpoint drop (i : nat) (s : string) : string :=
  match i, s with
  | S i', String _ s' => drop i' s'
  | _, _ => s
  end.

(** [s.find(c, start)] for a one-character [c]; [None] is Python's [-1]. *)
Fixpoint find_char (c : ascii) (s : string) : option nat :=
  match s with
  | EmptyString => None
  | String c' s' => if bool_decide (c' = c) then Some 0 else S <$> find_char c s'
  end.

Definition find_char_from (c : ascii) (start : nat) (s : string) : option nat :=
  (λ i, start + i) <$> find_char c (drop start s).

(** [s.startswith(p)] and [s.find(p)] for a general needle. *)
Fixpoint startswith (p s : string) : bool :=
  match p, s with
  | EmptyString, _ => true
  | String a p', String b s' => bool_decide (a = b) && startswith p' s'
  | String _ _, EmptyString => false
  end.

Fixpoint find (p s : string) : option nat :=
  if startswith p s then Some 0
  else match s with
       | EmptyString => None
       | String _ s' => S <$> find p s'
       end.

(** [s.replace(c, r)] for a one-character [c]. *)
Fixpoint replace (c : ascii) (r : string) (s : string) : string :=
  match s with
  | EmptyString => EmptyString
  | String c' s' =>
      if bool_decide (c' = c) then r +:+ replace c r s'
      else String c' (replace c r s')
  end.

(** [str(n)] for an integer. *)
Definition str (n : Z) : string := pretty n.

(** The white space that [int()] skips at both ends of a string:
    blank, \t, \n, \v, \f and \r. The codes 28 to 31 count as white
    space for [str.strip()] and not for [int()]. *)
Definition is_int_space (c : ascii) : bool :=
  let n := nat_of_ascii c in
  ((9 <=? n) && (n <=? 13)) || (n =? 32).

(** [int(s)] for a string: the white space at both ends is skipped, one
    sign is allowed, single underscores may separate digits, and a text
    of more than 4300 digits is refused (the limit of
    [sys.get_int_max_str_digits()]). [None] stands for [ValueError]. *)
Fixpoint digits (acc : Z) (after_digit : bool) (s : string) : option Z :=
  match s with
  | EmptyString => if after_digit then Some acc else None
  | String c s' =>
      if is_digit c
      then digits (10 * acc + Z.of_nat (nat_of_ascii c - 48)) true s'
      else if bool_decide (c = "_"%char) && after_digit
           then digits acc false s'
           else None
  end.

Definition unsigned (s : string) : option Z :=
  if (4300 <? Z.of_nat (String.length (keep is_digit s)))%Z then None
  else digits 0 false s.

Definition int (s : string) : option Z :=
  match rstrip is_int_space (lstrip is_int_space s) with
  | String "+" s' => unsigned s'
  | String "-" s' => Z.opp <$> unsigned s'
  | s' => unsigned s'
  end.

End Py.

(** ** Python values, exceptions *)

(** A [float]: a finite value as a rational, or one of [inf], [-inf]
    and [nan], which [json] decodes from [Infinity], [-Infinity], [NaN]
    and from numbers such as [1e999]. *)
Inductive pyfloat : Type :=
| Finite (q : Q)
| Infinity (negative : bool)
| NaN.

(** A decoded JSON value, as the HTTP clients hand it to the normaliser. *)
#[local] Unset Elimination Schemes.
Inductive pyval : Type :=
| PNone
| PBool (b : bool)
| PInt (z : Z)
| PFloat (f : pyfloat)
| PStr (s : string)
| PList (l : list pyval)
| PDict (d : list (string * pyval)).
#[local] Set Elimination Schemes.

(** Truth value of an object, as tested by [if], [not] and [or]. *)
Definition truthy (v : pyval) : bool :=
  match v with
  | PNone => false
  | PBool b => b
  | PInt z => negb (z =? 0)%Z
  | PFloat (Finite q) => negb (Qeq_bool q 0)
  | PFloat _ => true
  | PStr s => negb (bool_decide (s = ""))
  | PList l => negb (bool_decide (l = []))
  | PDict d => negb (bool_decide (d = []))
  end.

(** [a or b] *)
Definition py_or (a b : pyval) : pyval := if truthy a then a else b.

(** [d.get(k)]: the value bound to [k], Python's [None] when there is none.
    A dictionary is the list of its items; keys are unique in it. *)
Fixpoint dict_get (d : list (string * pyval)) (k : string) : pyval :=
  match d with
  | [] => PNone
  | (k', v) :: d' => if bool_decide (k' = k) then v else dict_get d' k
  end.

Inductive exn : Type :=
| ValueError | TypeError | IndexError | KeyError | OverflowError | APIError.

Global Instance exn_eq_dec : EqDecision exn.
Proof. solve_decision. Defined.

Inductive result (A : Type) : Type :=
| Ok (a : A)
| Raise (e : exn).
Global Arguments Ok {A} a.
Global Arguments Raise {A} e.

Global Instance result_ret : MRet result := λ A, Ok.

Global Instance result_bind : MBind result := λ A B k r,
  match r with
  | Ok a => k a
  | Raise e => Raise e
  end.

(** [try: body  except (e1, ..., en): handler] *)
Definition try_except {A} (body : result A) (caught : list exn) (handler : result A)
  : result A :=
  match body with
  | Ok a => Ok a
  | Raise e => if bool_decide (e ∈ caught) then handler else Raise e
  end.

(** [l[0]] *)
Definition index0 {A} (l : list A) : result A :=
  match l with
  | x :: _ => Ok x
  | [] => Raise IndexError
  end.

(** [int(s)] on a string *)
Definition int_of_str (s : string) : result Z :=
  match Py.int s with
  | Some z => Ok z
  | None => Raise ValueError
  end.

(** [int(v)] on any object: a finite float is truncated towards zero,
    an infinite one raises [OverflowError] and [nan] raises
    [ValueError]. *)
Definition int_of_val (v : pyval) : result Z :=
  match v with
  | PInt z => Ok z
  | PBool b => Ok (if b then 1 else 0)%Z
  | PFloat (Finite q) => Ok (Z.quot (Qnum q) (Z.pos (Qden q)))
  | PFloat (Infinity _) => Raise OverflowError
  | PFloat NaN => Raise ValueError
  | PStr s => int_of_str s
  | PNone | PList _ | PDict _ => Raise TypeError
  end.

(** ** The canonical paper record and [validate_paper_entry] *)

Record Paper : Type := mkPaper {
  doi : option string;
  title : string;
  authors : option string;
  year : option Z;
  publicationName : option string;
  url : option string;
  citedby_count : Z
}.

Definition is_dash (c : ascii) : bool := bool_decide (c = "-"%char).

Section Validate.
Variable entry : list (string * pyval).

(** [entry.get("doi") or entry.get("prism:doi")], kept when it is a
    string or [None]. *)
Definition raw_doi : pyval :=
  py_or (dict_get entry "doi") (dict_get entry "prism:doi").

Definition validated_doi : option string :=
  match raw_doi with
  | PStr s => Some s
  | _ => None
  end.

Definition raw_title : pyval :=
  py_or (dict_get entry "title") (dict_get entry "dc:title").

Definition validated_title : string :=
  match raw_title with
  | PStr s => if truthy (PStr s) then Py.strip s else "Unknown Title"
  | _ => "Unknown Title"
  end.

Definition raw_authors : pyval :=
  py_or (py_or (dict_get entry "authors") (dict_get entry "dc:creator"))
        (dict_get entry "author").

Definition validated_authors : option string :=
  match raw_authors with
  | PStr s => Some s
  | _ => None
  end.

Definition raw_year : pyval :=
  py_or (py_or (dict_get entry "year") (dict_get entry "prism:coverDisplayDate"))
        (dict_get entry "publicationYear").

(** The body of the [try] block: [int(year_str.split('-')[0])] and the
    range test. *)
Definition year_of_string (year_str : string) : result (option Z) :=
  seg ← index0 (Py.split_on is_dash year_str);
  y ← int_of_str seg;
  if ((1900 <=? y) && (y <=? 2030))%Z then Ok (Some y) else Ok None.

Definition validated_year : result (option Z) :=
  match raw_year with
  | PStr s =>
      if truthy (PStr s)
      then try_except (year_of_string s) [ValueError; IndexError] (Ok None)
      else Ok None
  | _ => Ok None
  end.

Definition strip_if_str (v : pyval) : option string :=
  match v with
  | PStr s => if truthy (PStr s) then Some (Py.strip s) else None
  | _ => None
  end.

Definition validated_publicationName : option string :=
  strip_if_str
    (py_or (py_or (dict_get entry "publicationName")
                  (dict_get entry "prism:publicationName"))
           (dict_get entry "journal")).

Definition validated_url : option string :=
  strip_if_str (py_or (dict_get entry "url") (dict_get entry "prism:url")).

Definition raw_cited : pyval :=
  py_or (py_or (dict_get entry "citedby-count") (dict_get entry "citationCount"))
        (dict_get entry "citations").

Definition validated_cited : result Z :=
  match raw_cited with
  | PNone => Ok 0%Z
  | v => try_except (int_of_val v) [ValueError; TypeError] (Ok 0%Z)
  end.

Definition build_paper : result Paper :=
  y ← validated_year;
  c ← validated_cited;
  Ok {| doi := validated_doi; title := validated_title;
        authors := validated_authors; year := y;
        publicationName := validated_publicationName;
        url := validated_url; citedby_count := c |}.
End Validate.

(** [field not in paper or paper[field] is None] *)
Definition field_missing (p : Paper) (field : string) : bool :=
  if bool_decide (field = "doi") then bool_decide (doi p = None)
  else if bool_decide (field = "title") then false
  else if bool_decide (field = "authors") then bool_decide (authors p = None)
  else if bool_decide (field = "year") then bool_decide (year p = None)
  else if bool_decide (field = "publicationName")
       then bool_decide (publicationName p = None)
  else if bool_decide (field = "url") then bool_decide (url p = None)
  else if bool_decide (field = "citedby-count") then false
  else true.

(** [validate_paper_entry(entry, required_fields)]; the empty dictionary
    it returns for a rejected entry is [None]. *)
Definition validate_paper_entry (entry : pyval) (required_fields : option (list string))
  : result (option Paper) :=
  match entry with
  | PDict d =>
      p ← build_paper d;
      if existsb (field_missing p) (default [] required_fields)
      then Ok None else Ok (Some p)
  | _ => Ok None
  end.

Definition entry1 : pyval :=
  PDict [("title", PStr "A Study of X"); ("year", PStr "2021-05-01");
         ("doi", PStr "10.1/ABC")].

(** ** Citation keys: [clean_bibtex_key] *)

Definition nl : string := String "010"%char EmptyString.

Definition is_comma_or_semicolon (c : ascii) : bool :=
  bool_decide (c = ","%char) || bool_decide (c = ";"%char).

Definition is_word_or_space (c : ascii) : bool := Py.is_word c || Py.is_space c.

(** [l[0]] and [l[-1]] where the code has already made sure that [l] is
    not empty (see [split_on_not_nil] and [split_ws_strip_not_nil]). *)
Definition first_of (l : list string) : string := default "" (head l).
Definition last_of (l : list string) : string := default "" (last l).

(** [if s:] on an optional string *)
Definition nonempty (s : option string) : bool :=
  match s with
  | Some s => negb (bool_decide (s = ""))
  | None => false
  end.

Definition last_name (authors : option string) : string :=
  match authors with
  | Some a =>
      if nonempty (Some a) then
        let author_parts := Py.split_on is_comma_or_semicolon (Py.strip a) in
        let first_author := Py.strip (first_of author_parts) in
        if nonempty (Some first_author) then last_of (Py.split_ws first_author)
        else "unknown"
      else "unknown"
  | None => "unknown"
  end.

Definition first_word (title : option string) : string :=
  match title with
  | Some t =>
      if nonempty (Some t) then
        let clean_title := Py.keep is_word_or_space (Py.lower t) in
        match Py.split_ws clean_title with
        | w :: _ => w
        | [] => "unknown"
        end
      else "unknown"
  | None => "unknown"
  end.

(** [str(year) if year else "unknown"] *)
Definition year_part (year : option Z) : string :=
  match year with
  | Some y => if (y =? 0)%Z then "unknown" else Py.str y
  | None => "unknown"
  end.

Definition base_key (title authors : option string) (year : option Z) : string :=
  Py.take 50 (Py.keep Py.is_word (last_name authors +:+ year_part year +:+ first_word title)).

(** One pass through the body of the [while] loop: the key tried for
    [suffix]. *)
Definition suffixed (base : string) (suffix : Z) : string :=
  let suffix_key := base +:+ Py.str suffix in
  if String.length suffix_key <=? 50 then suffix_key
  else
    let max_base_length := (50 - Z.of_nat (String.length (Py.str suffix)))%Z in
    Py.slice_to base max_base_length +:+ Py.str suffix.

(** The [while key in existing_keys] loop, with the number of iterations
    it may still take. [None]: the iterations ran out. *)
Fixpoint key_loop (fuel : nat) (existing_keys : gset string) (base : string)
    (key : string) (suffix : Z) : option string :=
  if bool_decide (key ∈ existing_keys) then
    match fuel with
    | O => None
    | S fuel' => key_loop fuel' existing_keys base (suffixed base suffix) (suffix + 1)%Z
    end
  else Some key.

(** A number of iterations that is always enough ([key_loop_enough]):
    every tried key ends in its own suffix digits, and the registry has
    only so many string tails. *)
Definition tails_count (existing_keys : gset string) : nat :=
  sum_list ((λ k, S (String.length k)) <$> elements existing_keys).

Definition clean_bibtex_key (title authors : option string) (year : option Z)
    (doi : option string) (existing_keys : option (gset string)) : string :=
  let base := base_key title authors year in
  let existing_keys := default ∅ existing_keys in
  default base (key_loop (S (tails_count existing_keys)) existing_keys base base 1).

(** ** The bibliography sink: [paper_to_bibtex], [save_bibtex] *)

(** [s.replace('{', '\\{').replace('}', '\\}')] *)
Definition escape_braces (s : string) : string :=
  Py.replace "}"%char "\}" (Py.replace "{"%char "\{" s).

(** One line [  name = {value},] of an entry. *)
Definition field_line (name value : string) : string :=
  "  " +:+ name +:+ " = {" +:+ value +:+ "}," +:+ nl.

Definition is_comma_or_nl (c : ascii) : bool :=
  bool_decide (c = ","%char) || bool_decide (c = "010"%char).

(** The lines added between the key line and the closing brace, each
    under its own [if]. *)
Definition bibtex_fields (paper : Paper) : string :=
  (if nonempty (Some (title paper))
   then field_line "title" (escape_braces (title paper)) else "")
  +:+ (match authors paper with
       | Some a => if nonempty (Some a) then field_line "author" (escape_braces a) else ""
       | None => ""
       end)
  +:+ (match year paper with
       | Some y => if (y =? 0)%Z then "" else field_line "year" (Py.str y)
       | None => ""
       end)
  +:+ (match publicationName paper with
       | Some j => if nonempty (Some j) then field_line "journal" (escape_braces j) else ""
       | None => ""
       end)
  +:+ (match doi paper with
       | Some d => if nonempty (Some d) then field_line "doi" d else ""
       | None => ""
       end)
  +:+ (match url paper with
       | Some u => if nonempty (Some u) then field_line "url" u else ""
       | None => ""
       end)
  +:+ (if (0 <? citedby_count paper)%Z
       then field_line "note" ("Citations: " +:+ Py.str (citedby_count paper)) else "").

(** The key [paper_to_bibtex] asks [clean_bibtex_key] for. *)
Definition paper_key (paper : Paper) (existing_keys : option (gset string)) : string :=
  clean_bibtex_key (Some (title paper)) (authors paper) (year paper) (doi paper)
                   existing_keys.

Definition paper_to_bibtex (paper : Paper) (existing_keys : option (gset string)) : string :=
  let key := paper_key paper existing_keys in
  let bibtex := "@article{" +:+ key +:+ "," +:+ nl +:+ bibtex_fields paper in
  Py.rstrip is_comma_or_nl bibtex +:+ nl +:+ "}" +:+ nl +:+ nl.

(** [s.find(p)] and [s.find(c, start)] as Python integers. *)
Definition find_Z (p s : string) : Z :=
  match Py.find p s with
  | Some i => Z.of_nat i
  | None => (-1)%Z
  end.

(** [s[a:b]] for non-negative [a] and [b] *)
Definition slice (s : string) (a b : nat) : string := Py.take (b - a) (Py.drop a s).

(** One turn of the [for paper in papers] loop of [save_bibtex]: the
    entry written to the file and the registry afterwards. *)
Definition save_bibtex_step (paper : Paper) (existing_keys : gset string)
  : string * gset string :=
  let bibtex_entry := paper_to_bibtex paper (Some existing_keys) in
  let key_start := Z.to_nat (find_Z "@article{" bibtex_entry + 9) in
  match Py.find_char_from ","%char key_start bibtex_entry with
  | Some key_end => (bibtex_entry, {[ slice bibtex_entry key_start key_end ]} ∪ existing_keys)
  | None => (bibtex_entry, existing_keys)
  end.

Fixpoint save_bibtex_loop (papers : list Paper) (existing_keys : gset string)
  : string * gset string :=
  match papers with
  | [] => ("", existing_keys)
  | paper :: rest =>
      let '(entry, existing_keys') := save_bibtex_step paper existing_keys in
      let '(entries, final_keys) := save_bibtex_loop rest existing_keys' in
      (entry +:+ entries, final_keys)
  end.

(** The three comment lines at the head of the file; [now] is the text
    of [time.strftime]. *)
Definition bibtex_header (now : string) (papers : list Paper) : string :=
  "% BibTeX entries generated from API" +:+ nl
  +:+ "% Generated on: " +:+ now +:+ nl
  +:+ "% Total papers: " +:+ Py.str (Z.of_nat (length papers)) +:+ nl +:+ nl.

(** [except Exception as e: raise APIError(...)] *)
Definition or_api_error {A} (body : result A) : result A :=
  match body with
  | Ok a => Ok a
  | Raise _ => Raise APIError
  end.

(** [save_bibtex(papers, output_path)]: the text written to the file. *)
Definition save_bibtex (now : string) (papers : list Paper) : result string :=
  or_api_error (Ok (bibtex_header now papers +:+ fst (save_bibtex_loop papers ∅))).

Definition paper1 : Paper :=
  {| doi := Some "10.1/ABC"; title := "A Study of {X}"; authors := Some "Ada Smith; Bo Chen";
     year := Some 2021%Z; publicationName := None; url := None; citedby_count := 3 |}.

Definition blank_paper : Paper :=
  {| doi := None; title := ""; authors := None; year := None;
     publicationName := None; url := None; citedby_count := 0 |}.

(** ** The tabular sink: [save_results_to_csv] *)

(** A data frame built from a list of paper records is the list of its
    rows. It has the column ['doi'] as soon as it has one row; the frame
    of the empty list has no column at all, and [df['doi']] raises
    [KeyError] on it. *)
Definition column_doi (df : list Paper) : result (list (option string)) :=
  match df with
  | [] => Raise KeyError
  | _ => Ok (doi <$> df)
  end.

Definition notna (p : Paper) : bool := bool_decide (doi p ≠ None).
Definition isna (p : Paper) : bool := bool_decide (doi p = None).

(** [df.drop_duplicates(subset='doi')]: a row is dropped when an earlier
    row carries the same value, compared as it stands. *)
Fixpoint drop_duplicates_from (seen : list (option string)) (df : list Paper) : list Paper :=
  match df with
  | [] => []
  | p :: df' =>
      if bool_decide (doi p ∈ seen) then drop_duplicates_from seen df'
      else p :: drop_duplicates_from (doi p :: seen) df'
  end.

Definition drop_duplicates (df : list Paper) : list Paper := drop_duplicates_from [] df.

(** [save_results_to_csv(papers, output_path)]: the frame that is written
    to the file and returned. *)
Definition save_results_to_csv (papers : list Paper) : result (list Paper) :=
  or_api_error (
    let df := papers in
    _ ← column_doi df;
    let df_with_doi := filter (λ p, notna p) df in
    let df_without_doi := filter (λ p, isna p) df in
    let final_df := drop_duplicates df_with_doi in
    Ok (final_df ++ df_without_doi)).

Definition with_doi (d : string) (t : string) : Paper :=
  {| doi := Some d; title := t; authors := None; year := Some 2021%Z;
     publicationName := None; url := None; citedby_count := 0 |}.

Definition without_doi (t : string) : Paper :=
  {| doi := None; title := t; authors := None; year := None;
     publicationName := None; url := None; citedby_count := 0 |}.

(** ** The similarity pass: [remove_duplicates] *)

Section Similarity.
(** The rows of the frame and their ['title'] cell ([None]: missing). *)
Context {Row : Type}.
Variable row_title : Row → option string.

(** [cosine_similarity(TfidfVectorizer(...).fit_transform(titles))]:
    the entries of the square matrix over the titles, or the exception
    of the vectoriser. *)
Variable tfidf_cosine : list string → result (nat → nat → Q).

(** [df['title'].fillna('')] *)
Definition fillna (df : list Row) : list string := (λ r, default "" (row_title r)) <$> df.

(** [x > 0.8] *)
Definition above_threshold (x : Q) : bool := negb (Qle_bool x (8 # 10)).

(** The list [duplicates] after the two nested [for] loops over a
    matrix of [n] rows. *)
Definition duplicates (n : nat) (similarity_matrix : nat → nat → Q) : list nat :=
  i ← seq 0 n;
  filter (λ j, above_threshold (similarity_matrix i j)) (seq (i + 1) (n - (i + 1))).

(** [df.drop(df.index[duplicates]).reset_index(drop=True)]: the rows
    whose position is not listed, in their order. The frame carries the
    index [0, 1, ...] that [standardize_records] gives it, so that the
    label of a row is its position. *)
Fixpoint drop_rows_from (pos : nat) (dropped : list nat) (df : list Row) : list Row :=
  match df with
  | [] => []
  | r :: df' =>
      if bool_decide (pos ∈ dropped) then drop_rows_from (S pos) dropped df'
      else r :: drop_rows_from (S pos) dropped df'
  end.

Definition drop_rows (dropped : list nat) (df : list Row) : list Row :=
  drop_rows_from 0 dropped df.

Definition remove_duplicates (df : list Row) : result (list Row) :=
  similarity_matrix ← tfidf_cosine (fillna df);
  Ok (drop_rows (duplicates (length df) similarity_matrix) df).
End Similarity.

(** A similarity to run the pass on: three titles at the positions 0, 1
    and 2, where the neighbours are alike and the two ends are not. *)
Definition chain_matrix (i j : nat) : Q :=
  if bool_decide (i = j) then 1
  else if bool_decide (i + 1 = j ∨ j + 1 = i) then 85 # 100
  else 3 # 10.

Definition chain_cosine (titles : list string) : result (nat → nat → Q) :=
  match titles with
  | [] => Raise ValueError
  | _ => Ok chain_matrix
  end.

(** A similarity under which only equal positions are alike. On the
    empty list the vectoriser finds no word for its vocabulary and
    raises [ValueError]. *)
Definition unlike_cosine (titles : list string) : result (nat → nat → Q) :=
  match titles with
  | [] => Raise ValueError
  | _ => Ok (λ i j, if bool_decide (i = j) then 1%Q else 0%Q)
  end.

(** ** Vocabulary of the statements *)

(** Every character of [s] is in the class. *)
Fixpoint all_chars (cls : ascii → bool) (s : string) : bool :=
  match s with
  | EmptyString => true
  | String c s' => cls c && all_chars cls s'
  end.

(** The tails of a string, the string itself first. *)
Fixpoint tails (s : string) : list string :=
  s :: match s with
       | EmptyString => []
       | String _ s' => tails s'
       end.

Definition is_comma (c : ascii) : bool := bool_decide (c = ","%char).

(** The DOI values of a frame, the rows without one left out. *)
Definition dois (df : list Paper) : list string := omap doi df.

(** A title whose first word has 44 characters and ends in the digit 1:
    with the author Li and the year 2021 the base key fills all 50
    characters and ends in 1. *)
Definition long_word : string := "xxxxxxxxxxxxxxxxxxxxxxxxxxxxxxxxxxxxxxxxxxx1".

Definition long_title : string := long_word +:+ " and the rest".

Definition long_base : string := "Li2021" +:+ long_word.

(** [has_doi d p]: the row [p] carries the DOI [d]. *)
Definition has_doi (d : string) (p : Paper) : bool := bool_decide (doi p = Some d).

(** The similarity pass in the words of its description: the row at
    position [j] stays when no earlier row [i] is more than 0.8 alike. *)
Definition unmatched (similarity_matrix : nat → nat → Q) (j : nat) : bool :=
  forallb (λ i, negb (above_threshold (similarity_matrix i j))) (seq 0 j).

Fixpoint keep_unmatched_from {Row} (similarity_matrix : nat → nat → Q) (pos : nat)
    (df : list Row) : list Row :=
  match df with
  | [] => []
  | r :: df' =>
      if unmatched similarity_matrix pos
      then r :: keep_unmatched_from similarity_matrix (S pos) df'
      else keep_unmatched_from similarity_matrix (S pos) df'
  end.

(** The title cell of a paper record. *)
Definition paper_title (p : Paper) : option string := Some (title p).

(** Two lists for the exact pass: the row without a DOI last, and first. *)
Definition doi_rows_first : list Paper :=
  [with_doi "10.1/x" "Protein folding"; without_doi "Graph theory"].

Definition doi_rows_last : list Paper :=
  [without_doi "Graph theory"; with_doi "10.1/x" "Protein folding"].

Definition unlike_matrix (i j : nat) : Q := if bool_decide (i = j) then 1%Q else 0%Q.

(** ** Vocabulary for the sinks *)

(** The keys given out by the loop of [save_bibtex], in the order of the
    papers: each by [paper_to_bibtex] against the registry as the turns
    before it have left it. *)
Fixpoint issued_keys (papers : list Paper) (existing_keys : gset string) : list string :=
  match papers with
  | [] => []
  | paper :: rest =>
      paper_key paper (Some existing_keys)
      :: issued_keys rest (snd (save_bibtex_step paper existing_keys))
  end.

(** Escaping in one pass: a backslash in front of each brace. *)
Definition is_brace (c : ascii) : bool :=
  bool_decide (c = "{"%char) || bool_decide (c = "}"%char).

Fixpoint backslash_braces (s : string) : string :=
  match s with
  | EmptyString => EmptyString
  | String c s' =>
      if is_brace c then String "\"%char (String c (backslash_braces s'))
      else String c (backslash_braces s')
  end.

(** Every brace of [s] comes right after a backslash; [after_backslash]
    tells whether the character before [s] is one. *)
Fixpoint braces_escaped (after_backslash : bool) (s : string) : bool :=
  match s with
  | EmptyString => true
  | String c s' =>
      (negb (is_brace c) || after_backslash)
      && braces_escaped (bool_decide (c = "\"%char)) s'
  end.

(** The dictionary [validate_paper_entry] returns for a paper. *)
Definition optional_str (s : option string) : pyval :=
  match s with
  | Some s => PStr s
  | None => PNone
  end.

Definition paper_as_dict (p : Paper) : pyval :=
  PDict [("doi", optional_str (doi p));
         ("title", PStr (title p));
         ("authors", optional_str (authors p));
         ("year", match year p with Some y => PInt y | None => PNone end);
         ("publicationName", optional_str (publicationName p));
         ("url", optional_str (url p));
         ("citedby-count", PInt (citedby_count p))].

(** The entries written by the loop of [save_bibtex], in the order of
    the papers. *)
Fixpoint issued_entries (papers : list Paper) (existing_keys : gset string) : list string :=
  match papers with
  | [] => []
  | paper :: rest =>
      paper_to_bibtex paper (Some existing_keys)
      :: issued_entries rest (snd (save_bibtex_step paper existing_keys))
  end.

(** [''.join(l)] *)
Fixpoint concat_str (l : list string) : string :=
  match l with
  | [] => ""
  | s :: l' => s +:+ concat_str l'
  end.

(** An infinite float, the one value on which [int()] raises an
    exception that the validators do not catch. *)
Definition is_infinite (v : pyval) : bool :=
  match v with
  | PFloat (Infinity _) => true
  | _ => false
  end.

(** The count of citations that [validate_paper_entry] reads is
    infinite. *)
Definition infinite_count (entry : list (string * pyval)) : bool :=
  is_infinite (raw_cited entry).

(** The keys of the dictionary [validate_paper_entry] builds. *)
Definition paper_fields : list string :=
  ["doi"; "title"; "authors"; "year"; "publicationName"; "url"; "citedby-count"].

(** ** Screening by key words: [screen_titles_abstracts] *)

(** [needle in hay] for two strings *)
Definition contains (needle hay : string) : bool :=
  match Py.find needle hay with
  | Some _ => true
  | None => false
  end.

(** One criterion: a string, a list of strings that must all occur, or
    an object of another type, which [check_criteria] passes over. *)
Inductive criterion : Type :=
| CStr (s : string)
| CAll (terms : list string)
| COther.

(** The test of one turn of the loop of [check_criteria]. *)
Definition criterion_matches (text_lower : string) (c : criterion) : bool :=
  match c with
  | CStr s => contains (Py.lower s) text_lower
  | CAll terms => forallb (λ term, contains (Py.lower term) text_lower) terms
  | COther => false
  end.

Fixpoint check_criteria_loop (text_lower : string) (criteria : list criterion)
    (include : bool) : bool :=
  match criteria with
  | [] => negb include
  | c :: criteria' =>
      if criterion_matches text_lower c then include
      else check_criteria_loop text_lower criteria' include
  end.

Definition check_criteria (text : string) (criteria : list criterion) (include : bool) : bool :=
  check_criteria_loop (Py.lower text) criteria include.

(** The three columns [screen_titles_abstracts] adds to a row. *)
Record Screened : Type := mkScreened {
  include_title : bool;
  exclude_title : bool;
  passed_screening : bool
}.

Definition screen_title (title : string) (inclusion_criteria exclusion_criteria : list criterion)
  : Screened :=
  let include_title := check_criteria title inclusion_criteria true in
  let exclude_title := check_criteria title exclusion_criteria false in
  {| include_title := include_title;
     exclude_title := exclude_title;
     passed_screening := include_title && negb exclude_title |}.

(** [screen_titles_abstracts(df, inclusion_criteria, exclusion_criteria)]
    on the column of titles. *)
Definition screen_titles_abstracts (titles : list string)
    (inclusion_criteria exclusion_criteria : list criterion) : list (string * Screened) :=
  (λ t, (t, screen_title t inclusion_criteria exclusion_criteria)) <$> titles.

(** ** The HTTP layer: [validate_api_response], [make_api_request] *)

(** What the code reads of a [requests.Response]: the status code, the
    header ['content-type'] (the empty string when there is none), the
    body as [response.json()] decodes it ([None]: it does not decode),
    and the header ['X-RateLimit-Remaining']. *)
Record Response : Type := mkResponse {
  status_code : Z;
  content_type : string;
  json_body : option pyval;
  rate_limit_remaining : option string
}.

(** The exceptions of this layer: the two subclasses of [APIError], the
    class [APIError] itself, [RequestException] with [Timeout], and any
    other exception. *)
Inductive request_exn : Type :=
| RateLimitError
| ResponseError
| BaseAPIError
| NetworkError
| UnexpectedError.

Section Http.
(** [response.raise_for_status()] of the library, as a test: does it
    raise [HTTPError] on this response. *)
Variable raise_for_status : Response → bool.

(** [validate_api_response(response)]: the decoded dictionary, or the
    exception raised. *)
Definition validate_api_response (response : Response)
  : list (string * pyval) + request_exn :=
  if raise_for_status response then
    if (status_code response =? 429)%Z then inr RateLimitError else inr ResponseError
  else if negb (contains "application/json" (content_type response)) then inr ResponseError
  else match json_body response with
       | Some (PDict data) => inl data
       | Some _ => inr ResponseError
       | None => inr ResponseError
       end.

(** One call of [session.get]: a response, a [RequestException] or
    [Timeout], or another exception. *)
Inductive attempt : Type :=
| Got (response : Response)
| NetworkDown
| Broke.

(** How a call of [make_api_request] ends. [Starved] is no ending of the
    code: the list of attempts handed to the model ran out. *)
Inductive ending : Type :=
| Returned (response : Response)
| ReturnedNone
| Raised (e : request_exn)
| Starved.

(** The state after a call: how it ended, the seconds of each
    [time.sleep], and the number of requests sent. *)
Record Run : Type := mkRun {
  ended : ending;
  slept : list Z;
  requests : nat
}.

(** The [while retries >= 0] loop of [make_api_request]. *)
Fixpoint request_loop (max_retries : Z) (attempts : list attempt)
    (retries consecutive_errors : Z) (slept : list Z) (requests : nat) : Run :=
  if (retries <? 0)%Z then mkRun ReturnedNone slept requests
  else
    match attempts with
    | [] => mkRun Starved slept requests
    | a :: rest =>
        let requests := S requests in
        (* [except ResponseError] and [except (RequestException, Timeout)] *)
        let counted (e : request_exn) :=
          let retries := (retries - 1)%Z in
          let consecutive_errors := (consecutive_errors + 1)%Z in
          if (3 <=? consecutive_errors)%Z then mkRun (Raised BaseAPIError) slept requests
          else
            let slept := slept ++ [(5 * (max_retries - retries))%Z] in
            if (retries <? 0)%Z then mkRun (Raised e) slept requests
            else request_loop max_retries rest retries consecutive_errors slept requests in
        (* [except Exception] *)
        let uncounted :=
          let retries := (retries - 1)%Z in
          if (retries <? 0)%Z then mkRun (Raised UnexpectedError) slept requests
          else request_loop max_retries rest retries consecutive_errors slept requests in
        match a with
        | Got response =>
            match validate_api_response response with
            | inl _ =>
                match rate_limit_remaining response with
                | Some remaining =>
                    if bool_decide (remaining = "") then mkRun (Returned response) slept requests
                    else match Py.int remaining with
                         | Some n =>
                             if (n <? 10)%Z
                             then mkRun (Returned response) (slept ++ [10%Z]) requests
                             else mkRun (Returned response) slept requests
                         | None => uncounted
                         end
                | None => mkRun (Returned response) slept requests
                end
            | inr RateLimitError =>
                let slept := slept ++ [60%Z] in
                let retries := (retries - 1)%Z in
                if (retries <? 0)%Z then mkRun (Raised RateLimitError) slept requests
                else request_loop max_retries rest retries consecutive_errors slept requests
            | inr ResponseError => counted ResponseError
            | inr _ => uncounted
            end
        | NetworkDown => counted NetworkError
        | Broke => uncounted
        end
    end.

(** [make_api_request(url, headers, params, timeout, max_retries)] against
    the answers of the network, one per request. *)
Definition make_api_request (max_retries : Z) (attempts : list attempt) : Run :=
  request_loop max_retries attempts max_retries 0 [] 0.
End Http.

(** A criterion with its strings in lower case. *)
Definition lower_criterion (c : criterion) : criterion :=
  match c with
  | CStr s => CStr (Py.lower s)
  | CAll terms => CAll (Py.lower <$> terms)
  | COther => COther
  end.

(** The answers handled by the two [except] clauses that count errors:
    a response that [validate_api_response] turns down with
    [ResponseError], and a [RequestException]. *)
Definition counted_error (raise_for_status : Response → bool) (a : attempt) : bool :=
  match a with
  | Got response =>
      match validate_api_response raise_for_status response with
      | inr ResponseError => true
      | _ => false
      end
  | NetworkDown => true
  | Broke => false
  end.

(** A server that answers every request with status 200 and the JSON
    object [{}], and one that answers with status 500. *)
Definition ok_response : Response :=
  mkResponse 200 "application/json; charset=utf-8" (Some (PDict [])) None.

Definition error_response : Response :=
  mkResponse 500 "text/html" None None.

(** [raise_for_status] of the library: it raises from status 400 on. *)
Definition raises_from_400 (response : Response) : bool :=
  (400 <=? status_code response)%Z.

(** How many of the answers are errors that the counter counts. *)
Definition counted_errors (raise_for_status : Response → bool) (answers : list attempt) : nat :=
  length (List.filter (counted_error raise_for_status) answers).

(** ** The validators of the sources *)

(** [d.get(k, default)]: [default] only when [k] is no key of [d]. *)
Fixpoint dict_get_or (d : list (string * pyval)) (k : string) (default : pyval) : pyval :=
  match d with
  | [] => default
  | (k', v) :: d' => if bool_decide (k' = k) then v else dict_get_or d' k default
  end.

(** The blocks that the validators of the sources repeat, on the value
    read from the entry: a string kept as it is (the DOI, the authors),
    the title, the year as the start of a date, the year as a number,
    the count of citations. *)
Definition str_or_none (v : pyval) : option string :=
  match v with
  | PStr s => Some s
  | _ => None
  end.

Definition title_of (title : pyval) : string :=
  match title with
  | PStr s => if truthy (PStr s) then Py.strip s else "Unknown Title"
  | _ => "Unknown Title"
  end.

Definition year_of_date (year_str : pyval) : result (option Z) :=
  match year_str with
  | PStr s =>
      if truthy (PStr s)
      then try_except (year_of_string s) [ValueError; IndexError] (Ok None)
      else Ok None
  | _ => Ok None
  end.

(** [int(year_str)] without the split, as DBLP and IEEE Xplore read it. *)
Definition year_of_number (year_str : pyval) : result (option Z) :=
  match year_str with
  | PStr s =>
      if truthy (PStr s)
      then try_except (y ← int_of_str s;
                       if ((1900 <=? y) && (y <=? 2030))%Z then Ok (Some y) else Ok None)
                      [ValueError; TypeError] (Ok None)
      else Ok None
  | _ => Ok None
  end.

Definition count_of (cited_count : pyval) : result Z :=
  match cited_count with
  | PNone => Ok 0%Z
  | v => try_except (int_of_val v) [ValueError; TypeError] (Ok 0%Z)
  end.

(** [validate_scopus_paper_entry(entry)] of getScopus.py *)
Definition validate_scopus_paper_entry (entry : pyval) : result (option Paper) :=
  match entry with
  | PDict d =>
      y ← year_of_date (dict_get d "prism:coverDisplayDate");
      c ← count_of (dict_get d "citedby-count");
      Ok (Some {| doi := str_or_none (dict_get d "prism:doi");
                  title := title_of (dict_get d "dc:title");
                  authors := str_or_none (dict_get d "dc:creator");
                  year := y;
                  publicationName := strip_if_str (dict_get d "prism:publicationName");
                  url := strip_if_str (dict_get d "prism:url");
                  citedby_count := c |})
  | _ => Ok None
  end.

(** The loop over the entries of a page in [get_scopus]: the papers
    appended to [all_papers]. A paper that the validator returns is a
    dictionary with seven keys, so [if paper] holds for it; [except
    Exception] skips the entry on which the validator raises. *)
Definition scopus_entries (entries : list pyval) : list Paper :=
  omap (λ entry,
          match validate_scopus_paper_entry entry with
          | Ok (Some paper) => Some paper
          | Ok None => None
          | Raise _ => None
          end) entries.

(** The entries of which the loop keeps a paper: the dictionaries whose
    count of citations is not infinite. *)
Definition collected (entry : pyval) : bool :=
  match entry with
  | PDict d => negb (is_infinite (dict_get d "citedby-count"))
  | _ => false
  end.

(** The keys that [validate_paper_entry] reads and Scopus does not use. *)
Definition generic_keys : list string :=
  ["doi"; "title"; "authors"; "author"; "year"; "publicationYear";
   "publicationName"; "journal"; "url"; "citationCount"; "citations"].

(** What a validator of a source may raise: an exception of [exn], or
    [AttributeError]. *)
Inductive raised : Type :=
| Builtin (e : exn)
| AttributeError.

(** [sep.join(l)] *)
Fixpoint join (sep : string) (l : list string) : string :=
  match l with
  | [] => ""
  | [s] => s
  | s :: l' => s +:+ sep +:+ join sep l'
  end.

(** The strings of a list of values, when all of them are strings. *)
Fixpoint strings_of (l : list pyval) : option (list string) :=
  match l with
  | [] => Some []
  | PStr s :: l' => (λ ss, s :: ss) <$> strings_of l'
  | _ :: l' => None
  end.

(** The loop over the authors: the truthy values under [key] of the
    authors that are dictionaries. *)
Definition author_names (key : string) (authors : list pyval) : list pyval :=
  omap (λ author,
          match author with
          | PDict a =>
              let full_name := dict_get_or a key (PStr "") in
              if truthy full_name then Some full_name else None
          | _ => None
          end) authors.

(** ["; ".join(author_names) if author_names else None] *)
Definition join_names (names : list pyval) : option string + raised :=
  match names with
  | [] => inl None
  | _ => match strings_of names with
         | Some ss => inl (Some (join "; " ss))
         | None => inr (Builtin TypeError)
         end
  end.

(** [entry.get("authors", {}).get("author", [])] and the block that
    follows it in [validate_dblp_paper_entry]. *)
Definition dblp_authors (entry : list (string * pyval)) : option string + raised :=
  match dict_get_or entry "authors" (PDict []) with
  | PDict a =>
      match dict_get_or a "author" (PList []) with
      | PList authors =>
          if truthy (PList authors) then join_names (author_names "text" authors)
          else inl None
      | _ => inl None
      end
  | _ => inr AttributeError
  end.

(** [validate_dblp_paper_entry(entry)] of getDBLP.py, with the seven
    keys that the sinks read. *)
Definition validate_dblp_paper_entry (entry : pyval) : option Paper + raised :=
  match entry with
  | PDict d =>
      match dblp_authors d with
      | inr e => inr e
      | inl names =>
          match year_of_number (dict_get d "year") with
          | Raise e => inr (Builtin e)
          | Ok y =>
              inl (Some {| doi := str_or_none (dict_get d "doi");
                           title := title_of (dict_get d "title");
                           authors := names;
                           year := y;
                           publicationName := strip_if_str (dict_get d "venue");
                           url := strip_if_str (dict_get d "url");
                           citedby_count := 0 |})
          end
      end
  | _ => inl None
  end.

(** One turn of the loop over the hits in [get_dblp_venue]: the paper
    appended to [all_papers], if any. [except Exception] catches what the
    turn raises: [hit.get] on a hit that is no dictionary, the validator,
    and [paper_venue.lower()] on a paper without a venue. *)
Definition dblp_hit (venue : string) (hit : pyval) : option Paper :=
  match hit with
  | PDict h =>
      match validate_dblp_paper_entry (dict_get_or h "info" (PDict [])) with
      | inl (Some paper) =>
          match publicationName paper with
          | Some paper_venue =>
              if contains (Py.lower venue) (Py.lower paper_venue) then Some paper else None
          | None => None
          end
      | inl None => None
      | inr _ => None
      end
  | _ => None
  end.

(** The papers of a page of hits. *)
Definition dblp_hits (venue : string) (hits : list pyval) : list Paper :=
  omap (dblp_hit venue) hits.

(** ** The end of [get_dblp_venue] *)

(** What the end of the driver leaves behind: the frame written to the
    CSV file, the text written to the .bib file, and what the driver
    returns or raises. [APIError] stands for the error class of the
    source, a subclass of it. *)
Record Exported : Type := mkExported {
  csv_file : option (list Paper);
  bib_file : option string;
  returned : result (list Paper)
}.

(** The steps from [if not all_papers] on; [write_bibtex] is the call
    [save_bibtex(all_papers, bibtex_path)]. *)
Definition export_with (write_bibtex : result string) (all_papers : list Paper)
    (flag : bool) : Exported :=
  match all_papers with
  | [] => mkExported None None (Ok [])
  | _ =>
      match save_results_to_csv all_papers with
      | Raise _ => mkExported None None (Raise APIError)
      | Ok final_df =>
          if flag then
            match write_bibtex with
            | Ok text => mkExported (Some final_df) (Some text) (Ok final_df)
            | Raise _ => mkExported (Some final_df) None (Raise APIError)
            end
          else mkExported (Some final_df) None (Ok final_df)
      end
  end.

(** The end of [get_dblp_venue]: the flag is the parameter
    [save_bibtex_format], and [save_bibtex] is the function of
    api_utils. *)
Definition export_dblp (now : string) (all_papers : list Paper) (save_bibtex_format : bool)
  : Exported :=
  export_with (save_bibtex now all_papers) all_papers save_bibtex_format.

(** * Properties *)

(** ** The definitions at work *)

Example strip_ex : Py.strip "  A Study of X  " = "A Study of X".
Proof. reflexivity. Qed.

Example split_on_ex :
  Py.split_on (λ c, bool_decide (c = "-"%char)) "2021-05-01" = ["2021"; "05"; "01"].
Proof. reflexivity. Qed.

Example split_on_leading : Py.split_on (λ c, bool_decide (c = "-"%char)) "-7" = [""; "7"].
Proof. reflexivity. Qed.

Example split_ws_ex : Py.split_ws "  Ada   Lovelace " = ["Ada"; "Lovelace"].
Proof. reflexivity. Qed.

Example int_ex : Py.int " 2_021 " = Some 2021%Z ∧ Py.int "20 21" = None
                 ∧ Py.int "" = None ∧ Py.int "-12" = Some (-12)%Z ∧ Py.int "2__1" = None.
Proof. repeat split; reflexivity. Qed.

(** [int()] does not skip the separators with the codes 28 to 31, which
    [str.strip()] removes. *)
Example int_space_ex :
  Py.int ("2021" +:+ String "028" "") = None
  ∧ Py.strip ("2021" +:+ String "028" "") = "2021"
  ∧ Py.int ("2021" +:+ String "009" "") = Some 2021%Z.
Proof. by vm_compute. Qed.

Example rstrip_ex :
  Py.rstrip (λ c, bool_decide (c = ","%char) || bool_decide (c = "010"%char))
            ("a = {b},
") = "a = {b}".
Proof. reflexivity. Qed.

Example slice_ex : Py.slice_to "abcdef" 4 = "abcd" ∧ Py.slice_to "abcdef" (-2) = "abcd".
Proof. split; reflexivity. Qed.

Example validate_entry1 :
  validate_paper_entry entry1 None =
  Ok (Some {| doi := Some "10.1/ABC"; title := "A Study of X"; authors := None;
              year := Some 2021%Z; publicationName := None; url := None;
              citedby_count := 0 |}).
Proof. reflexivity. Qed.

Example key_smith :
  clean_bibtex_key (Some "Deep Learning: a survey") (Some "Ada Smith; Bo Chen") (Some 2020%Z)
                   None (Some ∅) = "Smith2020deep".
Proof. vm_compute. reflexivity. Qed.

Example key_smith_again :
  clean_bibtex_key (Some "Deep Learning: a survey") (Some "Ada Smith; Bo Chen") (Some 2020%Z)
                   None (Some {[ "Smith2020deep" ]}) = "Smith2020deep1".
Proof. vm_compute. reflexivity. Qed.

Example key_smith_third :
  clean_bibtex_key (Some "Deep Learning: a survey") (Some "Ada Smith; Bo Chen") (Some 2020%Z)
                   None (Some {[ "Smith2020deep"; "Smith2020deep1" ]}) = "Smith2020deep2".
Proof. vm_compute. reflexivity. Qed.

Example key_unknown : clean_bibtex_key (Some "") None None None None = "unknownunknownunknown".
Proof. vm_compute. reflexivity. Qed.

Example key_underscore :
  clean_bibtex_key (Some "Graphs") (Some "J. De_Souza") (Some 2019%Z) None None
  = "De_Souza2019graphs".
Proof. vm_compute. reflexivity. Qed.

Example bibtex_paper1 :
  paper_to_bibtex paper1 None =
  "@article{Smith2021a," +:+ nl +:+
  "  title = {A Study of \{X\}}," +:+ nl +:+
  "  author = {Ada Smith; Bo Chen}," +:+ nl +:+
  "  year = {2021}," +:+ nl +:+
  "  doi = {10.1/ABC}," +:+ nl +:+
  "  note = {Citations: 3}" +:+ nl +:+ "}" +:+ nl +:+ nl.
Proof. vm_compute. reflexivity. Qed.

Example step_paper1 : snd (save_bibtex_step paper1 ∅) = {[ "Smith2021a" ]}.
Proof. vm_compute. reflexivity. Qed.

Example bibtex_blank :
  paper_to_bibtex blank_paper None = "@article{unknownunknownunknown" +:+ nl +:+ "}" +:+ nl +:+ nl.
Proof. vm_compute. reflexivity. Qed.

Example csv_same_doi :
  save_results_to_csv [with_doi "10.1/abc" "First"; without_doi "Second";
                       with_doi "10.1/abc" "Third"]
  = Ok [with_doi "10.1/abc" "First"; without_doi "Second"].
Proof. reflexivity. Qed.

Example remove_chain :
  remove_duplicates Some chain_cosine ["A"; "B"; "C"] = Ok ["A"].
Proof. reflexivity. Qed.

Example duplicates_chain : duplicates 3 chain_matrix = [1; 2].
Proof. reflexivity. Qed.

(** ** Normalisation of one entry *)

Lemma split_on_not_nil sep s : Py.split_on sep s ≠ [].
Proof.
  destruct s as [|c s]; simpl; [done|].
  destruct (sep c); [done|]. by destruct (Py.split_on sep s).
Qed.

(** The count of citations: [int()] raises [OverflowError] on an
    infinite float, which [except (ValueError, TypeError)] lets pass;
    every other value gives a count. *)
Lemma validated_cited_result d :
  if infinite_count d then validated_cited d = Raise OverflowError
  else ∃ c, validated_cited d = Ok c.
Proof.
  unfold infinite_count, validated_cited.
  destruct (raw_cited d) as [| b | z | [q|neg|] | s | l | d']; simpl; eauto.
  unfold int_of_str. destruct (Py.int s); simpl; eauto.
Qed.

Lemma build_paper_result d :
  if infinite_count d then build_paper d = Raise OverflowError
  else ∃ p, build_paper d = Ok p ∧ doi p = validated_doi d
            ∧ title p = validated_title d ∧ validated_year d = Ok (year p)
            ∧ validated_cited d = Ok (citedby_count p).
Proof.
  unfold build_paper. pose proof (validated_cited_result d) as Hc.
  assert (∃ oy, validated_year d = Ok oy) as (oy & Hy).
  { unfold validated_year.
    destruct (raw_year d) as [| | | | s | |]; try (by eexists).
    destruct (truthy (PStr s)); [|by eexists].
    unfold year_of_string, index0, int_of_str.
    destruct (Py.split_on is_dash s) as [|seg rest]; simpl; [by eexists|].
    destruct (Py.int seg) as [y|]; simpl; [|by eexists].
    destruct ((1900 <=? y)%Z && (y <=? 2030)%Z); by eexists. }
  rewrite Hy. simpl. destruct (infinite_count d).
  - by rewrite Hc.
  - destruct Hc as (c & Hc). rewrite Hc. simpl. eexists. by repeat split.
Qed.

Lemma validate_paper_entry_result d required_fields :
  if infinite_count d
  then validate_paper_entry (PDict d) required_fields = Raise OverflowError
  else ∃ p, build_paper d = Ok p
            ∧ validate_paper_entry (PDict d) required_fields
              = (if existsb (field_missing p) (default [] required_fields)
                 then Ok None else Ok (Some p)).
Proof.
  unfold validate_paper_entry. pose proof (build_paper_result d) as Hb.
  destruct (infinite_count d).
  - by rewrite Hb.
  - destruct Hb as (p & Hb & _). rewrite Hb. simpl. by exists p.
Qed.

(** The year of an entry: the computation ends without an exception, and
    it yields [z] exactly when the chosen raw value is a string whose
    first dash-separated piece reads as the integer [z] of the range. *)
Lemma validated_year_spec d :
  ∃ oy, validated_year d = Ok oy ∧
        ∀ z, oy = Some z ↔
             ∃ s seg rest, raw_year d = PStr s ∧ Py.split_on is_dash s = seg :: rest
                           ∧ Py.int seg = Some z ∧ (1900 ≤ z ≤ 2030)%Z.
Proof.
  unfold validated_year.
  destruct (raw_year d) as [| b | z0 | q | s | l | d'] eqn:Hraw;
    try (exists None; split; [done|]; intros z; split;
         [done | by intros (s & seg & rest & ? & _)]).
  destruct (truthy (PStr s)) eqn:Htruthy.
  - unfold year_of_string.
    destruct (Py.split_on is_dash s) as [|seg rest] eqn:Hsplit.
    { by destruct (split_on_not_nil is_dash s). }
    simpl. unfold int_of_str. destruct (Py.int seg) as [y|] eqn:Hint; simpl.
    + destruct ((1900 <=? y)%Z && (y <=? 2030)%Z) eqn:Hrange; simpl.
      * exists (Some y). split; [done|]. intros z. split.
        -- intros [= <-]. exists s, seg, rest. repeat split; try done; lia.
        -- intros (s' & seg' & rest' & [= <-] & Hs & Hi & _).
           rewrite Hsplit in Hs. injection Hs as <- <-. congruence.
      * exists None. split; [done|]. intros z. split; [done|].
        intros (s' & seg' & rest' & [= <-] & Hs & Hi & Hz).
        rewrite Hsplit in Hs. injection Hs as <- <-.
        rewrite Hint in Hi. injection Hi as <-. lia.
    + exists None. split; [done|]. intros z. split; [done|].
      intros (s' & seg' & rest' & [= <-] & Hs & Hi & _).
      rewrite Hsplit in Hs. injection Hs as <- <-. congruence.
  - exists None. split; [done|]. intros z. split; [done|].
    intros (s' & seg' & rest' & [= <-] & Hs & Hi & _).
    simpl in Htruthy. apply negb_false_iff, bool_decide_eq_true in Htruthy. subst s.
    simpl in Hs. injection Hs as <- <-. done.
Qed.

(** C8: the year block never raises, whatever the entry, and the year
    it gives is the integer read from the first dash-separated piece of
    the raw year string when that integer lies in 1900..2030; it is
    [None] for every other raw value (out of range, unreadable, not a
    string). The paper that the validator returns for a dictionary
    carries this year. The validator returns that paper, or turns the
    entry down for a required field, unless the count of citations is
    infinite: then the block of the count raises [OverflowError]. An
    entry that is no dictionary gives no paper and no exception. *)
Theorem year_never_raises_and_in_range (d : list (string * pyval)) :
  ∃ oy, validated_year d = Ok oy
        ∧ (∀ z, oy = Some z ↔
                ∃ s seg rest, raw_year d = PStr s
                              ∧ Py.split_on (λ c, bool_decide (c = "-"%char)) s = seg :: rest
                              ∧ Py.int seg = Some z ∧ (1900 ≤ z ≤ 2030)%Z)
        ∧ (∀ z, oy = Some z → (1900 ≤ z ≤ 2030)%Z)
        ∧ (if infinite_count d
           then ∀ required_fields,
                  validate_paper_entry (PDict d) required_fields = Raise OverflowError
           else ∃ p, year p = oy
                     ∧ ∀ required_fields,
                         validate_paper_entry (PDict d) required_fields
                         = (if existsb (field_missing p) (default [] required_fields)
                            then Ok None else Ok (Some p)))
        ∧ (∀ entry required_fields,
             (∀ d', entry ≠ PDict d') →
             validate_paper_entry entry required_fields = Ok None).
Proof.
  destruct (validated_year_spec d) as (oy & Hy & Hoy).
  exists oy. split; [done|]. split; [exact Hoy|]. split.
  { intros z Hz. apply Hoy in Hz as (? & ? & ? & _ & _ & _ & ?). done. }
  split.
  - pose proof (build_paper_result d) as Hb.
    destruct (infinite_count d) eqn:Hinf.
    + intros required_fields.
      pose proof (validate_paper_entry_result d required_fields) as Hv.
      by rewrite Hinf in Hv.
    + destruct Hb as (p & Hb & _ & _ & Hyear & _). exists p. split.
      * rewrite Hy in Hyear. by injection Hyear as ->.
      * intros required_fields. unfold validate_paper_entry. by rewrite Hb.
  - intros entry required_fields Hentry.
    destruct entry as [| | | | | |d']; try done. by destruct (Hentry d').
Qed.

(** C10, as the code has it: a raw year value that counts as true and is
    not a string gives no year, and the paper returned for the entry has
    none. (No paper is returned when the count of citations is
    infinite: the validator then raises [OverflowError].) *)
Theorem non_string_year_dropped (d : list (string * pyval)) (v : pyval) :
  dict_get d "year" = v → truthy v = true → (∀ s, v ≠ PStr s) →
  validated_year d = Ok None
  ∧ (if infinite_count d then validate_paper_entry (PDict d) None = Raise OverflowError
     else ∃ p, validate_paper_entry (PDict d) None = Ok (Some p) ∧ year p = None).
Proof.
  intros Hget Htrue Hnot.
  assert (validated_year d = Ok None) as Hy.
  { unfold validated_year, raw_year, py_or. rewrite Hget, Htrue. simpl. rewrite Htrue.
    destruct v as [| b | z0 | q | s | l | d']; try done. by destruct (Hnot s). }
  split; [done|].
  pose proof (build_paper_result d) as Hb.
  pose proof (validate_paper_entry_result d None) as Hv.
  destruct (infinite_count d); [done|].
  destruct Hb as (p & Hb & _ & _ & Hyear & _).
  destruct Hv as (p' & Hb' & Hv). rewrite Hb in Hb'. injection Hb' as <-.
  exists p. split; [done|]. rewrite Hy in Hyear. by injection Hyear.
Qed.

Lemma non_string_year_dropped_witness :
  validated_year [("title", PStr "A Study of X"); ("year", PInt 2021)] = Ok None
  ∧ ∃ p, validate_paper_entry (PDict [("title", PStr "A Study of X"); ("year", PInt 2021)]) None
         = Ok (Some p) ∧ year p = None.
Proof.
  apply (non_string_year_dropped [("title", PStr "A Study of X"); ("year", PInt 2021)]
           (PInt 2021)); [reflexivity | reflexivity | done].
Defined.

(** C10 as it is worded fails: a year field holding the integer 0 is
    passed over by the [or] chain, and the year is then read from the
    next key. *)
Lemma falsy_year_falls_through :
  dict_get [("year", PInt 0); ("publicationYear", PStr "2021")] "year" = PInt 0
  ∧ validate_paper_entry (PDict [("year", PInt 0); ("publicationYear", PStr "2021")]) None
    = Ok (Some {| doi := None; title := "Unknown Title"; authors := None;
                  year := Some 2021%Z; publicationName := None; url := None;
                  citedby_count := 0 |}).
Proof. split; reflexivity. Qed.

(** ** Facts about the string built-ins *)

Lemma app_nil (s : string) : "" +:+ s = s.
Proof. reflexivity. Qed.

Lemma app_cons c (a b : string) : String c a +:+ b = String c (a +:+ b).
Proof. reflexivity. Qed.

Lemma app_empty_r (s : string) : s +:+ "" = s.
Proof. induction s as [|c s IH]; [done|]. by rewrite app_cons, IH. Qed.

Lemma app_assoc' (a b c : string) : (a +:+ b) +:+ c = a +:+ b +:+ c.
Proof. induction a as [|x a IH]; [done|]. by rewrite !app_cons, IH. Qed.

Lemma app_eq_empty (a b : string) : a +:+ b = "" → a = "" ∧ b = "".
Proof. destruct a; [by rewrite app_nil | by rewrite app_cons]. Qed.

Lemma strlen_app (a b : string) :
  String.length (a +:+ b) = String.length a + String.length b.
Proof. induction a as [|x a IH]; [done|]. rewrite app_cons. simpl. by rewrite IH. Qed.

Lemma all_chars_app cls (a b : string) :
  all_chars cls (a +:+ b) = all_chars cls a && all_chars cls b.
Proof.
  induction a as [|x a IH]; [done|]. rewrite app_cons. simpl.
  rewrite IH. by destruct (cls x).
Qed.

Lemma all_chars_keep cls s : all_chars cls (Py.keep cls s) = true.
Proof.
  induction s as [|c s IH]; [done|]. simpl.
  destruct (cls c) eqn:Hc; [|done]. simpl. by rewrite Hc.
Qed.

Lemma all_chars_take cls k s : all_chars cls s = true → all_chars cls (Py.take k s) = true.
Proof.
  revert s. induction k as [|k IH]; intros [|c s]; simpl; try done.
  intros [-> Hs]%andb_true_iff. simpl. by apply IH.
Qed.

Lemma all_chars_impl (cls cls' : ascii → bool) s :
  (∀ c, cls c = true → cls' c = true) →
  all_chars cls s = true → all_chars cls' s = true.
Proof.
  intros Himpl. induction s as [|c s IH]; [done|]. simpl.
  intros [Hc Hs]%andb_true_iff. by rewrite (Himpl c Hc), IH.
Qed.

Lemma strlen_take k s : String.length (Py.take k s) = k `min` String.length s.
Proof.
  revert s. induction k as [|k IH]; intros [|c s]; simpl; try done.
  by rewrite IH.
Qed.

Lemma take_all k s : String.length s ≤ k → Py.take k s = s.
Proof.
  revert s. induction k as [|k IH]; intros [|c s]; simpl; try done; [lia|].
  intros Hle. rewrite IH; [done | lia].
Qed.

Lemma take_app_length (a b : string) : Py.take (String.length a) (a +:+ b) = a.
Proof. induction a as [|x a IH]; [by destruct b|]. rewrite app_cons. simpl. by rewrite IH. Qed.

Lemma drop_app_length (a b : string) : Py.drop (String.length a) (a +:+ b) = b.
Proof. induction a as [|x a IH]; [by destruct b|]. rewrite app_cons. simpl. by rewrite IH. Qed.

Lemma startswith_app (p s : string) : Py.startswith p (p +:+ s) = true.
Proof.
  induction p as [|c p IH]; [done|]. rewrite app_cons. simpl.
  rewrite IH. by rewrite bool_decide_eq_true_2.
Qed.

Lemma find_app (p s : string) : Py.find p (p +:+ s) = Some 0.
Proof.
  destruct p as [|c p]; [by destruct s|].
  rewrite app_cons. unfold Py.find. rewrite <- app_cons. by rewrite startswith_app.
Qed.

(** The first comma of [key +:+ "," +:+ _] sits right after a key that
    has none. *)
Lemma find_char_after c (key rest : string) :
  all_chars (λ x, negb (bool_decide (x = c))) key = true →
  Py.find_char c (key +:+ String c rest) = Some (String.length key).
Proof.
  induction key as [|x key IH].
  - intros _. rewrite app_nil. simpl. by rewrite bool_decide_eq_true_2.
  - simpl all_chars. intros [Hx Hkey]%andb_true_iff. rewrite app_cons.
    apply negb_true_iff in Hx. simpl. rewrite Hx, IH by done. done.
Qed.

Lemma rstrip_empty_iff cls s : Py.rstrip cls s = "" ↔ all_chars cls s = true.
Proof.
  induction s as [|c s IH]; simpl; [done|].
  destruct (Py.rstrip cls s) eqn:Hr.
  - destruct (cls c); simpl; [tauto|]. split; done.
  - split; [done|]. intros [_ Hs]%andb_true_iff. apply IH in Hs. done.
Qed.

Lemma rstrip_app cls (a b : string) :
  Py.rstrip cls b ≠ "" → Py.rstrip cls (a +:+ b) = a +:+ Py.rstrip cls b.
Proof.
  intros Hb. induction a as [|x a IH]; [done|].
  rewrite !app_cons. simpl. rewrite IH.
  destruct (a +:+ Py.rstrip cls b) eqn:Hab; [|done].
  by apply app_eq_empty in Hab as [_ ?].
Qed.

Lemma rstrip_all cls (a b : string) :
  all_chars cls b = true → Py.rstrip cls (a +:+ b) = Py.rstrip cls a.
Proof.
  intros Hb. induction a as [|x a IH].
  - rewrite app_nil. by apply rstrip_empty_iff.
  - rewrite app_cons. simpl. by rewrite IH.
Qed.

Lemma rstrip_keeps cls (a : string) c :
  cls c = false → Py.rstrip cls (a +:+ String c "") = a +:+ String c "".
Proof.
  intros Hc. rewrite rstrip_app; simpl; rewrite Hc; done.
Qed.

Lemma lstrip_all_chars cls s : all_chars cls (Py.lstrip cls s) = all_chars cls s.
Proof.
  induction s as [|c s IH]; [done|]. simpl.
  destruct (cls c) eqn:Hc; simpl; [done | by rewrite Hc].
Qed.

(** [s.strip()] is empty exactly for a string of white space. *)
Lemma strip_empty_iff s : Py.strip s = "" ↔ all_chars Py.is_space s = true.
Proof. unfold Py.strip. by rewrite rstrip_empty_iff, lstrip_all_chars. Qed.

Lemma tail_in_tails (a b : string) : b ∈ tails (a +:+ b).
Proof.
  induction a as [|x a IH].
  - rewrite app_nil. destruct b; simpl; left.
  - rewrite app_cons. simpl. by right.
Qed.

Lemma length_tails s : length (tails s) = S (String.length s).
Proof. induction s as [|c s IH]; [done|]. simpl in *. by rewrite IH. Qed.

(** The digits of [str(n)]. *)
Lemma digit_char_is_digit x : Py.is_digit (pretty_N_char x) = true.
Proof. unfold pretty_N_char. by repeat case_match. Qed.

Lemma pretty_N_go_digits x s :
  all_chars Py.is_digit s = true → all_chars Py.is_digit (pretty_N_go x s) = true.
Proof.
  revert s. induction (N.lt_wf_0 x) as [x _ IH]. intros s Hs.
  destruct (decide (x = 0%N)) as [->|Hx]; [by rewrite pretty_N_go_0|].
  rewrite pretty_N_go_step by lia. apply IH.
  - apply N.div_lt; lia.
  - simpl. by rewrite digit_char_is_digit, Hs.
Qed.

Lemma str_digits (n : Z) : (0 ≤ n)%Z → all_chars Py.is_digit (Py.str n) = true.
Proof.
  intros Hn. unfold Py.str, pretty, pretty_Z.
  destruct n as [|p|p]; [done | | lia].
  unfold pretty, pretty_positive, pretty, pretty_N.
  case_decide; [done|]. by apply pretty_N_go_digits.
Qed.

Lemma digit_is_word c : Py.is_digit c = true → Py.is_word c = true.
Proof. unfold Py.is_word, Py.is_alnum. by intros ->. Qed.

Lemma word_is_not_comma c : Py.is_word c = true → negb (bool_decide (c = ","%char)) = true.
Proof.
  intros Hc. apply negb_true_iff, bool_decide_eq_false. by intros ->.
Qed.

Global Instance str_of_nat_inj : Inj (=) (=) (λ n : nat, Py.str (1 + Z.of_nat n)).
Proof.
  intros n m H. unfold Py.str in H. apply (inj pretty) in H. lia.
Qed.

(** ** The title of an entry *)

Lemma title_sentinel d :
  (∀ s, raw_title d = PStr s → s = "") → validated_title d = "Unknown Title".
Proof.
  intros Hraw. unfold validated_title.
  destruct (raw_title d) as [| b | z | q | s | l | d']; try done.
  rewrite (Hraw s eq_refl). done.
Qed.

Lemma title_trimmed d s :
  raw_title d = PStr s → s ≠ "" → validated_title d = Py.strip s.
Proof.
  intros Hraw Hs. unfold validated_title. rewrite Hraw. simpl.
  by rewrite bool_decide_eq_false_2.
Qed.

(** The title is not empty as long as the raw title, when it is a
    string, has a character that is not white space. *)
Lemma title_not_empty d :
  (∀ s, raw_title d = PStr s → s ≠ "" → all_chars Py.is_space s = false) →
  validated_title d ≠ "".
Proof.
  intros Hraw. unfold validated_title.
  destruct (raw_title d) as [| b | z | q | s | l | d'] eqn:Hd; try done.
  simpl. case_bool_decide as Hs; simpl; [done|].
  intros Hstrip%strip_empty_iff. by rewrite (Hraw s eq_refl Hs) in Hstrip.
Qed.

(** C7 at the entry whose title is three blanks: the test for an empty
    title comes before [strip], so the paper gets the empty title and
    not the sentinel. *)
Theorem blank_title_gives_empty_title :
  validate_paper_entry (PDict [("title", PStr "   ")]) None
  = Ok (Some {| doi := None; title := ""; authors := None; year := None;
                publicationName := None; url := None; citedby_count := 0 |}).
Proof. reflexivity. Qed.

(** ** The key loop *)

Lemma key_loop_free fuel reg base key s :
  key ∉ reg → key_loop fuel reg base key s = Some key.
Proof. intros Hkey. destruct fuel; simpl; by rewrite bool_decide_eq_false_2. Qed.

Lemma key_loop_taken fuel reg base key s :
  key ∈ reg →
  key_loop (S fuel) reg base key s = key_loop fuel reg base (suffixed base s) (s + 1).
Proof. intros Hkey. simpl. by rewrite bool_decide_eq_true_2. Qed.

(** What the loop returns is the first key of the sequence
    [key, suffixed base s, suffixed base (s + 1), ...] outside the
    registry. *)
Lemma key_loop_first fuel reg base key s k :
  key_loop fuel reg base key s = Some k →
  (k ∉ reg) ∧
  ((k = key ∧ key ∉ reg) ∨
   (key ∈ reg ∧ ∃ n : nat, k = suffixed base (s + Z.of_nat n)
                           ∧ ∀ m : nat, m < n → suffixed base (s + Z.of_nat m) ∈ reg)).
Proof.
  revert key s. induction fuel as [|fuel IH]; intros key s.
  - simpl. case_bool_decide; [done|]. intros [= <-]. split; [done|by left].
  - destruct (decide (key ∈ reg)) as [Hin|Hout].
    + rewrite key_loop_taken by done. intros Hk.
      destruct (IH _ _ Hk) as [Hfree [[-> Hnot]|[Hs (n & -> & Hbelow)]]].
      * split; [done|]. right. split; [done|]. exists 0. split.
        -- f_equal. lia.
        -- intros m. lia.
      * split; [done|]. right. split; [done|]. exists (S n). split.
        -- f_equal. lia.
        -- intros [|m] Hm.
           ++ by replace (s + Z.of_nat 0)%Z with s by lia.
           ++ replace (s + Z.of_nat (S m))%Z with (s + 1 + Z.of_nat m)%Z by lia.
              apply Hbelow. lia.
    + rewrite key_loop_free by done. intros [= <-]. split; [done|by left].
Qed.

(** The loop ends within [fuel] turns when one of the first [fuel] keys
    with a suffix is free. *)
Lemma key_loop_enough fuel reg base key s (n : nat) :
  n < fuel → suffixed base (s + Z.of_nat n) ∉ reg →
  is_Some (key_loop fuel reg base key s).
Proof.
  revert key s n. induction fuel as [|fuel IH]; intros key s n Hn Hfree; [lia|].
  destruct (decide (key ∈ reg)) as [Hin|Hout].
  - rewrite key_loop_taken by done. destruct n as [|n].
    + replace (s + Z.of_nat 0)%Z with s in Hfree by lia.
      rewrite key_loop_free by done. by eexists.
    + apply (IH _ _ n); [lia|].
      by replace (s + 1 + Z.of_nat n)%Z with (s + Z.of_nat (S n))%Z by lia.
  - rewrite key_loop_free by done. by eexists.
Qed.

Lemma str_in_tails_of_suffixed base s : Py.str s ∈ tails (suffixed base s).
Proof. unfold suffixed. case_match; apply tail_in_tails. Qed.

Lemma length_bind_tails (l : list string) :
  length (l ≫= tails) = sum_list ((λ k, S (String.length k)) <$> l).
Proof.
  induction l as [|k l IH]; [done|].
  change ((k :: l) ≫= tails) with (tails k ++ (l ≫= tails)).
  rewrite length_app, length_tails, IH. done.
Qed.

(** Among the first [tails_count reg + 1] suffixes one gives a free key:
    the keys end in pairwise different digit strings, and these would
    all be tails of registered keys. *)
Lemma some_suffix_free (reg : gset string) base :
  ∃ n : nat, n ≤ tails_count reg ∧ suffixed base (1 + Z.of_nat n) ∉ reg.
Proof.
  set (N := tails_count reg).
  destruct (decide (Forall (λ n : nat, suffixed base (1 + Z.of_nat n) ∈ reg) (seq 0 (S N))))
    as [Hall|Hnot].
  - exfalso.
    set (l := (λ n : nat, Py.str (1 + Z.of_nat n)) <$> seq 0 (S N)).
    assert (NoDup l) as Hnodup.
    { apply (NoDup_fmap_2 _), NoDup_seq. }
    assert (∀ x, x ∈ l → x ∈ elements reg ≫= tails) as Hincl.
    { intros x (n & -> & Hn)%list_elem_of_fmap.
      apply list_elem_of_bind. exists (suffixed base (1 + Z.of_nat n)). split.
      - apply str_in_tails_of_suffixed.
      - apply elem_of_elements. by apply (proj1 (Forall_forall _ _) Hall). }
    pose proof (submseteq_length _ _ (NoDup_submseteq _ _ Hnodup Hincl)) as Hlen.
    unfold l in Hlen. rewrite length_fmap, length_seq, length_bind_tails in Hlen.
    unfold N, tails_count in Hlen. lia.
  - apply not_Forall_Exists in Hnot; [|apply _].
    apply Exists_exists in Hnot as (n & Hn & Hfree).
    apply elem_of_seq in Hn. exists n. split; [lia|done].
Qed.

Lemma key_loop_mono fuel fuel' reg base key s k :
  key_loop fuel reg base key s = Some k → fuel ≤ fuel' →
  key_loop fuel' reg base key s = Some k.
Proof.
  revert fuel' key s. induction fuel as [|fuel IH]; intros fuel' key s.
  - simpl. case_bool_decide; [done|]. intros [= <-] _. by apply key_loop_free.
  - destruct (decide (key ∈ reg)) as [Hin|Hout].
    + rewrite key_loop_taken by done. intros Hk Hle.
      destruct fuel' as [|fuel']; [lia|].
      rewrite key_loop_taken by done. apply IH; [done|lia].
    + rewrite key_loop_free by done. intros [= <-] _. by apply key_loop_free.
Qed.

(** [clean_bibtex_key] is the result of its loop: the allowance of turns
    built into the definition, and any larger one, is enough. *)
Lemma clean_bibtex_key_loop title authors year doi (reg : gset string) fuel :
  tails_count reg < fuel →
  key_loop fuel reg (base_key title authors year) (base_key title authors year) 1
  = Some (clean_bibtex_key title authors year doi (Some reg)).
Proof.
  intros Hfuel. unfold clean_bibtex_key. cbv zeta.
  change (default ∅ (Some reg)) with reg.
  destruct (some_suffix_free reg (base_key title authors year)) as (n & Hn & Hfree).
  destruct (key_loop_enough (S (tails_count reg)) reg (base_key title authors year)
              (base_key title authors year) 1 n ltac:(lia) Hfree) as [k Hk].
  rewrite Hk. simpl. apply (key_loop_mono _ _ _ _ _ _ _ Hk). lia.
Qed.

Lemma clean_bibtex_key_spec title authors year doi (reg : gset string) :
  let base := base_key title authors year in
  let key := clean_bibtex_key title authors year doi (Some reg) in
  (key ∉ reg) ∧
  ((key = base ∧ base ∉ reg) ∨
   (base ∈ reg ∧ ∃ n : nat, key = suffixed base (1 + Z.of_nat n)
                            ∧ ∀ m : nat, m < n → suffixed base (1 + Z.of_nat m) ∈ reg)).
Proof.
  intros base key.
  apply (key_loop_first (S (tails_count reg)) reg base base 1 key).
  apply clean_bibtex_key_loop. lia.
Qed.

Lemma base_key_word title authors year :
  all_chars Py.is_word (base_key title authors year) = true.
Proof. unfold base_key. apply all_chars_take, all_chars_keep. Qed.

Lemma base_key_length title authors year : String.length (base_key title authors year) ≤ 50.
Proof. unfold base_key. rewrite strlen_take. lia. Qed.

Lemma suffixed_short base s :
  String.length (base +:+ Py.str s) ≤ 50 → suffixed base s = base +:+ Py.str s.
Proof. intros Hlen. unfold suffixed. by rewrite (proj2 (Nat.leb_le _ _) Hlen). Qed.

Lemma suffixed_long base s :
  50 < String.length (base +:+ Py.str s) → String.length (Py.str s) ≤ 50 →
  suffixed base s = Py.take (50 - String.length (Py.str s)) base +:+ Py.str s
  ∧ String.length (suffixed base s) = 50.
Proof.
  intros Hlong Hs. unfold suffixed.
  rewrite (proj2 (Nat.leb_gt _ _) Hlong). unfold Py.slice_to.
  rewrite (proj2 (Z.ltb_ge _ _)) by lia.
  replace (Z.to_nat (50 - Z.of_nat (String.length (Py.str s))))
    with (50 - String.length (Py.str s)) by lia.
  split; [done|]. rewrite strlen_app, strlen_take. rewrite strlen_app in Hlong. lia.
Qed.

Lemma suffixed_word base s :
  (0 ≤ s)%Z → all_chars Py.is_word base = true →
  all_chars Py.is_word (suffixed base s) = true.
Proof.
  intros Hs Hbase.
  assert (all_chars Py.is_word (Py.str s) = true) as Hstr.
  { apply (all_chars_impl Py.is_digit); [apply digit_is_word | by apply str_digits]. }
  unfold suffixed, Py.slice_to. repeat case_match;
    rewrite all_chars_app, Hstr, ?Hbase, ?all_chars_take; done.
Qed.

Lemma clean_bibtex_key_word title authors year doi (reg : gset string) :
  all_chars Py.is_word (clean_bibtex_key title authors year doi (Some reg)) = true.
Proof.
  destruct (clean_bibtex_key_spec title authors year doi reg)
    as [_ [[-> _]|[_ (n & -> & _)]]].
  - apply base_key_word.
  - apply suffixed_word; [lia | apply base_key_word].
Qed.

(** C4, as the code has it. The base key is made of word characters
    (letters, digits, underscore) and has at most 50 of them. The loop
    ends; it returns the base key when that is free, and otherwise the
    first free key of [suffixed base 1], [suffixed base 2], ... . A key
    with a suffix is base and digits when they fit into 50 characters,
    and otherwise the base cut down so that the whole has 50. The second
    of two papers with the same base key gets [suffixed base 1], which is
    base followed by 1 for a base of fewer than 50 characters, whenever
    that key is not the base key itself and is free. *)
Theorem citation_key_collision_policy
    (title authors : option string) (year : option Z) (doi : option string)
    (reg : gset string) :
  let base := base_key title authors year in
  let key := clean_bibtex_key title authors year doi (Some reg) in
  base = Py.take 50 (Py.keep Py.is_word
                       (last_name authors +:+ year_part year +:+ first_word title)) ∧
  all_chars Py.is_word base = true ∧ String.length base ≤ 50 ∧
  (∀ fuel, tails_count reg < fuel → key_loop fuel reg base base 1 = Some key) ∧
  (key ∉ reg) ∧
  (base ∉ reg → key = base) ∧
  (base ∈ reg → ∃ s, (1 ≤ s)%Z ∧ key = suffixed base s
                     ∧ ∀ t, (1 ≤ t < s)%Z → suffixed base t ∈ reg) ∧
  (∀ s, (String.length (base +:+ Py.str s) ≤ 50 → suffixed base s = base +:+ Py.str s) ∧
        (50 < String.length (base +:+ Py.str s) → String.length (Py.str s) ≤ 50 →
         suffixed base s = Py.take (50 - String.length (Py.str s)) base +:+ Py.str s
         ∧ String.length (suffixed base s) = 50)) ∧
  (∀ title2 authors2 year2 doi2,
     base_key title2 authors2 year2 = base → base ∉ reg →
     suffixed base 1 ∉ reg → suffixed base 1 ≠ base →
     clean_bibtex_key title2 authors2 year2 doi2 (Some ({[ key ]} ∪ reg)) = suffixed base 1) ∧
  (String.length base < 50 → suffixed base 1 = base +:+ "1" ∧ suffixed base 1 ≠ base).
Proof.
  intros base key.
  destruct (clean_bibtex_key_spec title authors year doi reg) as [Hfree Hfirst].
  fold base key in Hfree, Hfirst.
  split; [reflexivity|].
  split; [apply base_key_word|]. split; [apply base_key_length|].
  split; [intros fuel Hfuel; by apply clean_bibtex_key_loop|].
  split; [done|].
  split.
  { intros Hbase. by destruct Hfirst as [[-> _]|[? _]]. }
  split.
  { intros Hbase. destruct Hfirst as [[_ ?]|[_ (n & Hkey & Hbelow)]]; [done|].
    exists (1 + Z.of_nat n)%Z. split; [lia|]. split; [done|].
    intros t Ht. replace t with (1 + Z.of_nat (Z.to_nat (t - 1)))%Z by lia.
    apply Hbelow. lia. }
  split.
  { intros s. split; [apply suffixed_short | apply suffixed_long]. }
  split.
  { intros title2 authors2 year2 doi2 Hsame Hbase Hone Hne.
    assert (key = base) as Hkey.
    { destruct Hfirst as [[Hk _]|[Hin _]]; [done | by destruct Hbase]. }
    rewrite Hkey.
    destruct (clean_bibtex_key_spec title2 authors2 year2 doi2 ({[ base ]} ∪ reg))
      as [_ Hsecond].
    rewrite Hsame in Hsecond. fold base in Hsecond.
    destruct Hsecond as [[_ Hout]|[_ (n & -> & Hbelow)]].
    { destruct Hout. apply elem_of_union_l. by apply elem_of_singleton. }
    destruct n as [|n]; [done|].
    specialize (Hbelow 0 ltac:(lia)). simpl in Hbelow.
    apply elem_of_union in Hbelow as [Hb%elem_of_singleton|Hb];
      [by destruct Hne | by destruct Hone]. }
  intros Hlen.
  assert (suffixed base 1 = base +:+ "1") as ->.
  { apply suffixed_short. rewrite strlen_app. change (Py.str 1) with "1". simpl. lia. }
  split; [done|]. intros Heq%(f_equal String.length).
  rewrite strlen_app in Heq. simpl in Heq. lia.
Qed.

(** C4 as it is worded fails in two places. The class [\w] keeps the
    underscore, which is not alphanumeric; and for a base key of 50
    characters that ends in 1 the key with suffix 1 is the base key
    itself, so the second paper gets the suffix 2. *)
Lemma key_keeps_underscore_and_skips_suffix_1 :
  clean_bibtex_key (Some "Graphs") (Some "J. De_Souza") (Some 2019%Z) None (Some ∅)
  = "De_Souza2019graphs"
  ∧ Py.is_alnum "_" = false
  ∧ base_key (Some long_title) (Some "Li") (Some 2021%Z) = long_base
  ∧ String.length long_base = 50
  ∧ clean_bibtex_key (Some long_title) (Some "Li") (Some 2021%Z) None (Some ∅) = long_base
  ∧ suffixed long_base 1 = long_base
  ∧ clean_bibtex_key (Some long_title) (Some "Li") (Some 2021%Z) None (Some {[ long_base ]})
    = Py.take 49 long_base +:+ "2".
Proof. repeat split; vm_compute; reflexivity. Qed.

(** ** The bibliography sink and the registry *)

Lemma field_line_kept name value : all_chars is_comma_or_nl (field_line name value) = false.
Proof. reflexivity. Qed.

Lemma blank_or_kept_app (a b : string) :
  a = "" ∨ all_chars is_comma_or_nl a = false →
  b = "" ∨ all_chars is_comma_or_nl b = false →
  a +:+ b = "" ∨ all_chars is_comma_or_nl (a +:+ b) = false.
Proof.
  intros [->|Ha] [->|Hb]; rewrite ?app_nil, ?app_empty_r; auto;
    right; rewrite all_chars_app, ?Ha, ?Hb; by destruct (all_chars _ _).
Qed.

(** The lines of an entry are none at all, or they hold a character
    that [rstrip(',\n')] does not take away. *)
Lemma bibtex_fields_blank_or_kept paper :
  bibtex_fields paper = "" ∨ all_chars is_comma_or_nl (bibtex_fields paper) = false.
Proof.
  unfold bibtex_fields.
  repeat apply blank_or_kept_app; repeat case_match; auto using field_line_kept.
Qed.

Lemma rstrip_app_kept cls (a b : string) :
  all_chars cls b = false →
  Py.rstrip cls (a +:+ b) = a +:+ Py.rstrip cls b.
Proof.
  intros Hb. apply rstrip_app. intros Hr%rstrip_empty_iff. congruence.
Qed.

(** An entry with at least one line starts with [@article{], the key
    and a comma. *)
Lemma paper_to_bibtex_shape paper existing_keys :
  bibtex_fields paper ≠ "" →
  ∃ rest, paper_to_bibtex paper existing_keys
          = "@article{" +:+ paper_key paper existing_keys +:+ String "," rest.
Proof.
  intros Hfields.
  destruct (bibtex_fields_blank_or_kept paper) as [?|Hkept]; [done|].
  unfold paper_to_bibtex. cbv zeta.
  set (key := paper_key paper existing_keys).
  replace ("@article{" +:+ key +:+ "," +:+ nl +:+ bibtex_fields paper)
    with (("@article{" +:+ key +:+ "," +:+ nl) +:+ bibtex_fields paper)
    by (by rewrite !app_assoc').
  rewrite rstrip_app_kept by done.
  eexists. rewrite !app_assoc'. reflexivity.
Qed.

(** For such an entry the loop of [save_bibtex] reads the key back from
    the text and adds exactly that key to the registry. *)
Lemma save_bibtex_step_registers paper (reg : gset string) :
  bibtex_fields paper ≠ "" →
  save_bibtex_step paper reg
  = (paper_to_bibtex paper (Some reg), {[ paper_key paper (Some reg) ]} ∪ reg).
Proof.
  intros Hfields. unfold save_bibtex_step. cbv zeta.
  destruct (paper_to_bibtex_shape paper (Some reg) Hfields) as [rest Hshape].
  rewrite Hshape. set (key := paper_key paper (Some reg)).
  assert (all_chars (λ x, negb (bool_decide (x = ","%char))) key = true) as Hkey.
  { apply (all_chars_impl Py.is_word); [apply word_is_not_comma|].
    apply clean_bibtex_key_word. }
  unfold find_Z. rewrite find_app.
  change (Z.to_nat (Z.of_nat 0 + 9)) with (String.length "@article{").
  unfold Py.find_char_from, slice. rewrite drop_app_length.
  rewrite (find_char_after _ _ _ Hkey). simpl.
  rewrite Nat.sub_0_r. by rewrite take_app_length.
Qed.

(** C5, as the code has it. [clean_bibtex_key] only reads the registry
    and returns a key that is not in it. The registry is changed by the
    loop of [save_bibtex]: for a paper whose entry has at least one line,
    one turn adds the returned key and nothing else. *)
Theorem registry_updated_by_export_loop (paper : Paper) (reg : gset string) :
  bibtex_fields paper ≠ "" →
  let key := paper_key paper (Some reg) in
  (key ∉ reg) ∧
  fst (save_bibtex_step paper reg) = paper_to_bibtex paper (Some reg) ∧
  snd (save_bibtex_step paper reg) = {[ key ]} ∪ reg ∧
  ∀ k, k ∈ snd (save_bibtex_step paper reg) ↔ k = key ∨ k ∈ reg.
Proof.
  intros Hfields key.
  rewrite (save_bibtex_step_registers paper reg Hfields). fold key. simpl.
  split; [apply clean_bibtex_key_spec|]. split; [done|]. split; [done|].
  intros k. rewrite elem_of_union, elem_of_singleton. done.
Qed.

Lemma registry_updated_by_export_loop_witness :
  let key := paper_key paper1 (Some ∅) in
  (key ∉ (∅ : gset string)) ∧
  fst (save_bibtex_step paper1 ∅) = paper_to_bibtex paper1 (Some ∅) ∧
  snd (save_bibtex_step paper1 ∅) = {[ key ]} ∪ ∅ ∧
  ∀ k, k ∈ snd (save_bibtex_step paper1 ∅) ↔ k = key ∨ k ∈ (∅ : gset string).
Proof. apply (registry_updated_by_export_loop paper1 ∅). by vm_compute. Defined.

(** C5 as it is worded fails: the key generator returns a key and leaves
    the registry as it was, without the key; and for a paper without any
    line the loop of [save_bibtex] finds no comma and adds nothing, so
    that the same key is given out again. *)
Lemma generator_does_not_register :
  clean_bibtex_key (Some "Deep Learning") (Some "Ada Smith") (Some 2020%Z) None
                   (Some {[ "Chen2019graphs" ]}) = "Smith2020deep"
  ∧ ("Smith2020deep" ∉ ({[ "Chen2019graphs" ]} : gset string))
  ∧ paper_key blank_paper (Some ∅) = "unknownunknownunknown"
  ∧ snd (save_bibtex_step blank_paper ∅) = ∅
  ∧ paper_key blank_paper (Some (snd (save_bibtex_step blank_paper ∅)))
    = "unknownunknownunknown".
Proof.
  split; [by vm_compute|]. split; [by vm_compute|].
  split; [by vm_compute|]. split; by vm_compute.
Qed.

(** ** The tabular sink and its exact pass *)

Lemma filter_bool_cons {A} (f : A → bool) x l :
  filter (λ y, f y) (x :: l) = if f x then x :: filter (λ y, f y) l else filter (λ y, f y) l.
Proof. rewrite filter_cons. destruct (f x); by case_decide. Qed.

Lemma isna_notna p : isna p = negb (notna p).
Proof. unfold isna, notna. destruct (doi p); by repeat case_bool_decide. Qed.

Lemma drop_duplicates_from_elem seen df p :
  p ∈ drop_duplicates_from seen df → p ∈ df ∧ doi p ∉ seen.
Proof.
  revert seen. induction df as [|q df IH]; intros seen; simpl; [by intros ?%elem_of_nil|].
  case_bool_decide as Hq.
  - intros [? ?]%IH. split; [by right|done].
  - intros [->|Hp]%elem_of_cons; [split; [by left|done]|].
    apply IH in Hp as [? Hp]. split; [by right|].
    intros ?. apply Hp. by right.
Qed.

Lemma drop_duplicates_from_nodup seen df : NoDup (doi <$> drop_duplicates_from seen df).
Proof.
  revert seen. induction df as [|q df IH]; intros seen; simpl; [constructor|].
  case_bool_decide as Hq; [apply IH|].
  rewrite fmap_cons. apply NoDup_cons. split; [|apply IH].
  intros (p & Hd & Hp)%list_elem_of_fmap.
  apply drop_duplicates_from_elem in Hp as [_ Hp]. apply Hp. rewrite Hd. by left.
Qed.

(** The row kept for a DOI is the first row with that DOI. *)
Lemma drop_duplicates_from_find seen df d :
  Some d ∉ seen →
  List.find (has_doi d) (drop_duplicates_from seen df) = List.find (has_doi d) df.
Proof.
  revert seen. induction df as [|q df IH]; intros seen Hd; simpl; [done|].
  case_bool_decide as Hq.
  - assert (has_doi d q = false) as ->.
    { apply bool_decide_eq_false. intros Hqd. by rewrite Hqd in Hq. }
    by apply IH.
  - simpl. destruct (has_doi d q) eqn:Hqd; [done|].
    apply IH. intros [Hdq|?]%elem_of_cons; [|done].
    apply bool_decide_eq_false in Hqd. by rewrite Hdq in Hqd.
Qed.

(** Rows with pairwise different DOI values are all kept. *)
Lemma drop_duplicates_from_id seen df :
  NoDup (doi <$> df) → (∀ p, p ∈ df → doi p ∉ seen) → drop_duplicates_from seen df = df.
Proof.
  revert seen. induction df as [|q df IH]; intros seen Hnodup Hseen; simpl; [done|].
  rewrite fmap_cons in Hnodup. apply NoDup_cons in Hnodup as [Hq Hnodup].
  rewrite bool_decide_eq_false_2 by (apply Hseen; by left).
  f_equal. apply IH; [done|].
  intros p Hp [Hpq|?]%elem_of_cons.
  - apply Hq. rewrite <- Hpq. apply list_elem_of_fmap. by exists p.
  - apply (Hseen p); [by right|done].
Qed.

Lemma find_app_or {A} (f : A → bool) (l1 l2 : list A) :
  List.find f (l1 ++ l2)
  = match List.find f l1 with Some x => Some x | None => List.find f l2 end.
Proof. induction l1 as [|x l1 IH]; simpl; [done|]. by destruct (f x). Qed.

Lemma find_filter_notna d df :
  List.find (has_doi d) (filter (λ p, notna p) df) = List.find (has_doi d) df.
Proof.
  induction df as [|q df IH]; [done|]. rewrite filter_bool_cons. simpl.
  unfold notna at 1, has_doi at 2.
  destruct (doi q) as [dq|] eqn:Hq.
  - rewrite bool_decide_eq_true_2 by done. simpl. unfold has_doi at 1. rewrite Hq.
    by rewrite IH.
  - rewrite bool_decide_eq_false_2 by (by intros []). by rewrite bool_decide_eq_false_2.
Qed.

Lemma find_filter_isna d df : List.find (has_doi d) (filter (λ p, isna p) df) = None.
Proof.
  induction df as [|q df IH]; [done|]. rewrite filter_bool_cons.
  unfold isna at 1. case_bool_decide as Hq; [|done].
  simpl. unfold has_doi at 1. rewrite Hq. by rewrite bool_decide_eq_false_2.
Qed.

Lemma dois_filter_isna df : dois (filter (λ p, isna p) df) = [].
Proof.
  induction df as [|q df IH]; [done|]. rewrite filter_bool_cons.
  unfold isna at 1. case_bool_decide as Hq; [|done].
  unfold dois in *. simpl. by rewrite Hq.
Qed.

Lemma doi_filter_notna df : doi <$> filter (λ p, notna p) df = Some <$> dois df.
Proof.
  induction df as [|q df IH]; [done|]. rewrite filter_bool_cons.
  unfold notna at 1, dois. simpl. destruct (doi q) as [dq|] eqn:Hq.
  - rewrite bool_decide_eq_true_2 by done. simpl. rewrite Hq. f_equal. apply IH.
  - rewrite bool_decide_eq_false_2 by (by intros []). apply IH.
Qed.

Lemma nodup_dois df : NoDup (doi <$> df) → NoDup (dois df).
Proof.
  induction df as [|q df IH]; [constructor|].
  rewrite fmap_cons. intros [Hq Hnodup]%NoDup_cons. unfold dois in *. simpl.
  destruct (doi q) as [dq|] eqn:Hdq; [|by apply IH].
  apply NoDup_cons. split; [|by apply IH].
  intros (p & Hp & Hd)%list_elem_of_omap. apply Hq.
  apply list_elem_of_fmap. by exists p.
Qed.

Lemma filter_isna_of_notna (df : list Paper) :
  (∀ p, p ∈ df → notna p = true) → filter (λ p, isna p) df = [].
Proof.
  induction df as [|q df IH]; intros Hall; [done|]. rewrite filter_bool_cons.
  rewrite isna_notna, (Hall q) by (by left). simpl.
  apply IH. intros p Hp. apply Hall. by right.
Qed.

Lemma filter_isna_twice (df : list Paper) :
  filter (λ p, isna p) (filter (λ p, isna p) df) = filter (λ p, isna p) df.
Proof.
  induction df as [|q df IH]; [done|]. rewrite filter_bool_cons.
  destruct (isna q) eqn:Hq; [|done]. by rewrite filter_bool_cons, Hq, IH.
Qed.

Lemma notna_of_filter (df : list Paper) p : p ∈ filter (λ p, notna p) df → notna p = true ∧ p ∈ df.
Proof. intros [Hp ?]%list_elem_of_filter. split; [by apply Is_true_true|done]. Qed.

(** The frame the tabular sink writes for a list that is not empty. *)
Lemma save_results_to_csv_ok papers :
  papers ≠ [] →
  save_results_to_csv papers
  = Ok (drop_duplicates (filter (λ p, notna p) papers) ++ filter (λ p, isna p) papers).
Proof. by destruct papers. Qed.

(** C1, as the code has it: DOI values are compared as they stand, letter
    case included. For a list that is not empty the sink returns a frame
    in which no DOI value occurs twice, in which the row with a given DOI
    is the first such row of the input, and in which every row without a
    DOI is kept; of two rows with the same DOI text the first remains. *)
Theorem exact_pass_keeps_first_per_doi (papers : list Paper) :
  papers ≠ [] →
  ∃ final_df,
    save_results_to_csv papers = Ok final_df
    ∧ NoDup (dois final_df)
    ∧ (∀ d, List.find (has_doi d) final_df = List.find (has_doi d) papers)
    ∧ filter (λ p, isna p) final_df = filter (λ p, isna p) papers
    ∧ (∀ p, p ∈ final_df → p ∈ papers)
    ∧ (∀ p q, papers = [p; q] → doi p = doi q → doi p ≠ None → final_df = [p]).
Proof.
  intros Hne. eexists. split; [by apply save_results_to_csv_ok|].
  unfold drop_duplicates. repeat split.
  - unfold dois. rewrite omap_app. fold (dois (filter (λ p, isna p) papers)).
    rewrite dois_filter_isna, app_nil_r.
    apply nodup_dois, drop_duplicates_from_nodup.
  - intros d. rewrite find_app_or, find_filter_isna.
    rewrite drop_duplicates_from_find by (by intros ?%elem_of_nil).
    rewrite find_filter_notna. by destruct (List.find _ _).
  - rewrite filter_app, filter_isna_twice, filter_isna_of_notna; [done|].
    intros p [Hp _]%drop_duplicates_from_elem. by apply notna_of_filter in Hp as [? _].
  - intros p [Hp|Hp]%elem_of_app.
    + apply drop_duplicates_from_elem in Hp as [Hp _].
      by apply notna_of_filter in Hp as [_ ?].
    + by apply list_elem_of_filter in Hp as [_ ?].
  - intros p q -> Hpq Hp.
    assert (notna p = true) as Hnp by (by apply bool_decide_eq_true).
    assert (notna q = true) as Hnq by (apply bool_decide_eq_true; by rewrite <- Hpq).
    rewrite !filter_bool_cons, Hnp, Hnq, !isna_notna, Hnp, Hnq. simpl.
    rewrite (bool_decide_eq_true_2 (doi q ∈ [doi p])) by (rewrite Hpq; by left). done.
Qed.

Lemma exact_pass_keeps_first_per_doi_witness :
  [with_doi "10.1/abc" "First"; with_doi "10.1/abc" "Second"] ≠ []
  ∧ save_results_to_csv [with_doi "10.1/abc" "First"; with_doi "10.1/abc" "Second"]
    = Ok [with_doi "10.1/abc" "First"].
Proof.
  split; [done|].
  destruct (exact_pass_keeps_first_per_doi
              [with_doi "10.1/abc" "First"; with_doi "10.1/abc" "Second"] ltac:(done))
    as (final_df & -> & _ & _ & _ & _ & Htwo).
  f_equal. by apply (Htwo _ _ eq_refl).
Defined.

(** C1 as it is worded fails: two DOI values that differ in letter case
    only are two values for [drop_duplicates], and both rows are kept. *)
Lemma dois_differing_in_case_both_kept :
  Py.lower "10.1/ABC" = Py.lower "10.1/abc"
  ∧ save_results_to_csv [with_doi "10.1/ABC" "A Study of X"; with_doi "10.1/abc" "A Study of X"]
    = Ok [with_doi "10.1/ABC" "A Study of X"; with_doi "10.1/abc" "A Study of X"].
Proof. split; reflexivity. Qed.

(** C6, as the code has it. On the empty list the bibliography sink
    writes its three comment lines, with the count 0, and no entry; the
    tabular sink finds no column ['doi'] in the empty frame and raises
    [APIError]. On every other list the tabular sink returns a frame. *)
Theorem sinks_on_empty_input (now : string) :
  save_bibtex now []
  = Ok ("% BibTeX entries generated from API" +:+ nl
        +:+ "% Generated on: " +:+ now +:+ nl
        +:+ "% Total papers: 0" +:+ nl +:+ nl)
  ∧ save_results_to_csv [] = Raise APIError
  ∧ ∀ paper papers, ∃ final_df, save_results_to_csv (paper :: papers) = Ok final_df.
Proof.
  split; [|split; [done|]].
  - unfold save_bibtex, bibtex_header. simpl. f_equal.
    by rewrite app_empty_r.
  - intros paper papers. eexists. by apply save_results_to_csv_ok.
Qed.

(** C6 as it is worded fails for the tabular sink. *)
Lemma tabular_sink_rejects_empty_input : save_results_to_csv [] = Raise APIError.
Proof. reflexivity. Qed.

(** ** The similarity pass *)

Lemma above_threshold_true x : above_threshold x = true ↔ (8 # 10 < x)%Q.
Proof.
  unfold above_threshold. rewrite negb_true_iff, <- not_true_iff_false, Qle_bool_iff.
  split; [apply Qnot_le_lt | apply Qlt_not_le].
Qed.

Lemma above_threshold_false x : above_threshold x = false ↔ (x <= 8 # 10)%Q.
Proof. unfold above_threshold. by rewrite negb_false_iff, Qle_bool_iff. Qed.

(** A position is listed in [duplicates] exactly when an earlier row is
    above the threshold with it. *)
Lemma elem_of_duplicates n m j :
  j ∈ duplicates n m ↔ ∃ i, i < j < n ∧ above_threshold (m i j) = true.
Proof.
  unfold duplicates. rewrite list_elem_of_bind. split.
  - intros (i & [Habove Hj%elem_of_seq]%list_elem_of_filter & Hi%elem_of_seq).
    exists i. split; [lia | by apply Is_true_true].
  - intros (i & Hij & Habove). exists i. split.
    + apply list_elem_of_filter. split; [by apply Is_true_true|].
      apply elem_of_seq. lia.
    + apply elem_of_seq. lia.
Qed.

Lemma unmatched_true m j :
  unmatched m j = true ↔ ∀ i, i < j → above_threshold (m i j) = false.
Proof.
  unfold unmatched. rewrite forallb_forall. split.
  - intros Hall i Hi. apply negb_true_iff, Hall, in_seq. lia.
  - intros Hall i Hi%in_seq. apply negb_true_iff, Hall. lia.
Qed.

Lemma forallb_false_exists {A} (f : A → bool) l :
  forallb f l = false → ∃ x, In x l ∧ f x = false.
Proof.
  induction l as [|x l IH]; simpl; [done|].
  destruct (f x) eqn:Hx; simpl.
  - intros (y & ? & ?)%IH. exists y. auto.
  - intros _. exists x. auto.
Qed.

Lemma duplicates_unmatched n m j :
  j < n → bool_decide (j ∈ duplicates n m) = negb (unmatched m j).
Proof.
  intros Hj. destruct (unmatched m j) eqn:Hu; simpl.
  - apply bool_decide_eq_false. rewrite elem_of_duplicates.
    intros (i & Hi & Habove). rewrite unmatched_true in Hu.
    rewrite Hu in Habove by lia. done.
  - apply bool_decide_eq_true. rewrite elem_of_duplicates.
    apply forallb_false_exists in Hu as (i & Hi%in_seq & Habove).
    exists i. split; [lia|]. by apply negb_false_iff.
Qed.

Lemma drop_rows_from_spec {Row} n m pos (df : list Row) :
  pos + length df = n →
  drop_rows_from pos (duplicates n m) df = keep_unmatched_from m pos df.
Proof.
  revert pos. induction df as [|r df IH]; intros pos Hn; simpl; [done|].
  simpl in Hn. rewrite duplicates_unmatched by lia.
  rewrite IH by lia. by destruct (unmatched m pos).
Qed.

Lemma keep_unmatched_from_id {Row} m pos (df : list Row) :
  (∀ j, pos ≤ j < pos + length df → unmatched m j = true) →
  keep_unmatched_from m pos df = df.
Proof.
  revert pos. induction df as [|r df IH]; intros pos Hall; simpl; [done|].
  rewrite Hall by (simpl; lia). f_equal. apply IH.
  intros j Hj. apply Hall. simpl. lia.
Qed.

Lemma remove_duplicates_spec {Row} (row_title : Row → option string) tfidf_cosine df m :
  tfidf_cosine (fillna row_title df) = Ok m →
  remove_duplicates row_title tfidf_cosine df = Ok (keep_unmatched_from m 0 df).
Proof.
  intros Hm. unfold remove_duplicates. rewrite Hm. simpl.
  f_equal. by apply drop_rows_from_spec.
Qed.

(** C3: the positions listed for removal are those [j] with an earlier
    [i] whose similarity to [j] is above 0.8, and the pass returns the
    rows at the other positions. Nothing looks at whether the earlier
    row is removed itself: of three rows where the first two and the
    last two are alike and the first and the last are not, only the
    first stays. *)
Theorem similarity_pass_drops_later_of_each_pair {Row} (row_title : Row → option string)
    (tfidf_cosine : list string → result (nat → nat → Q))
    (df : list Row) (m : nat → nat → Q) (A B C : Row) :
  tfidf_cosine (fillna row_title df) = Ok m →
  (∀ j, j ∈ duplicates (length df) m ↔ ∃ i, i < j < length df ∧ (8 # 10 < m i j)%Q)
  ∧ remove_duplicates row_title tfidf_cosine df = Ok (keep_unmatched_from m 0 df)
  ∧ (df = [A; B; C] → (8 # 10 < m 0%nat 1%nat)%Q → (8 # 10 < m 1%nat 2%nat)%Q →
     (m 0%nat 2%nat <= 8 # 10)%Q →
     remove_duplicates row_title tfidf_cosine df = Ok [A]).
Proof.
  intros Hm. split; [|split].
  - intros j. rewrite elem_of_duplicates.
    by setoid_rewrite above_threshold_true.
  - by apply remove_duplicates_spec.
  - intros Hdf Hab%above_threshold_true Hbc%above_threshold_true Hac%above_threshold_false.
    rewrite (remove_duplicates_spec _ _ _ _ Hm). subst df.
    unfold keep_unmatched_from, unmatched. simpl. by rewrite Hab, Hbc, Hac.
Qed.

Lemma similarity_pass_drops_later_of_each_pair_witness :
  chain_cosine (fillna Some ["A"; "B"; "C"]) = Ok chain_matrix
  ∧ remove_duplicates Some chain_cosine ["A"; "B"; "C"] = Ok ["A"].
Proof.
  split; [reflexivity|].
  apply (similarity_pass_drops_later_of_each_pair
           Some chain_cosine ["A"; "B"; "C"] chain_matrix "A" "B" "C" eq_refl);
    [reflexivity | reflexivity | reflexivity | discriminate].
Defined.

Lemma remove_duplicates_unchanged {Row} (row_title : Row → option string)
    (tfidf_cosine : list string → result (nat → nat → Q))
    (df : list Row) (m : nat → nat → Q) :
  tfidf_cosine (fillna row_title df) = Ok m →
  (∀ i j, i < j < length df → (m i j <= 8 # 10)%Q) →
  remove_duplicates row_title tfidf_cosine df = Ok df.
Proof.
  intros Hm Hnone. rewrite (remove_duplicates_spec _ _ _ _ Hm). f_equal.
  apply keep_unmatched_from_id. intros j Hj. apply unmatched_true.
  intros i Hi. apply above_threshold_false, Hnone. simpl in Hj. lia.
Qed.

(** C9, as the code has it: on a frame for which the vectoriser returns
    a matrix and in which no pair of rows is above the threshold, the
    pass returns the frame as it is. *)
Theorem similarity_pass_fixes_deduplicated {Row} (row_title : Row → option string)
    (tfidf_cosine : list string → result (nat → nat → Q))
    (df : list Row) (m : nat → nat → Q) :
  tfidf_cosine (fillna row_title df) = Ok m →
  (∀ i j, i < j < length df → (m i j <= 8 # 10)%Q) →
  remove_duplicates row_title tfidf_cosine df = Ok df.
Proof. apply remove_duplicates_unchanged. Qed.

(** C9 as it is worded fails on the empty list: no pair of its titles
    is above the threshold, and the pass does not return it, because the
    vectoriser raises [ValueError] and the pass lets the exception
    through. *)
Lemma similarity_pass_raises_on_empty_list :
  (∀ (m : nat → nat → Q) i j, i < j < length (@nil string) → (m i j <= 8 # 10)%Q)
  ∧ unlike_cosine (fillna Some []) = Raise ValueError
  ∧ remove_duplicates Some unlike_cosine [] = Raise ValueError
  ∧ remove_duplicates Some unlike_cosine [] ≠ Ok [].
Proof.
  split; [intros m i j Hij; simpl in Hij; lia|].
  split; [reflexivity|]. split; [reflexivity|]. discriminate.
Qed.

Lemma similarity_pass_fixes_deduplicated_witness :
  unlike_cosine (fillna Some ["Graph theory"; "Protein folding"])
  = Ok (λ i j, if bool_decide (i = j) then 1%Q else 0%Q)
  ∧ remove_duplicates Some unlike_cosine ["Graph theory"; "Protein folding"]
    = Ok ["Graph theory"; "Protein folding"].
Proof.
  split; [reflexivity|].
  apply (similarity_pass_fixes_deduplicated Some unlike_cosine
           ["Graph theory"; "Protein folding"]
           (λ i j, if bool_decide (i = j) then 1%Q else 0%Q) eq_refl).
  intros i j Hij. rewrite bool_decide_eq_false_2 by lia. discriminate.
Defined.

(** ** The two passes on a list without duplicates *)

Lemma filter_bool_all {A} (f : A → bool) l :
  Forall (λ x, f x = true) l → filter (λ x, f x) l = l.
Proof.
  induction 1 as [|x l Hx _ IH]; [done|]. by rewrite filter_bool_cons, Hx, IH.
Qed.

Lemma filter_bool_none {A} (f : A → bool) l :
  Forall (λ x, f x = false) l → filter (λ x, f x) l = [].
Proof.
  induction 1 as [|x l Hx _ IH]; [done|]. by rewrite filter_bool_cons, Hx, IH.
Qed.

Lemma notna_isna_permutation (df : list Paper) :
  filter (λ p, notna p) df ++ filter (λ p, isna p) df ≡ₚ df.
Proof.
  induction df as [|q df IH]; [done|].
  rewrite !filter_bool_cons, isna_notna. destruct (notna q); simpl.
  - by rewrite IH.
  - by rewrite <- Permutation_middle, IH.
Qed.

(** C2, as the code has it. Without two equal DOI values and without a
    pair of titles above the threshold, the similarity pass returns the
    list as it is, and the exact pass returns the same rows, those with a
    DOI first and those without after them, each group in its order; the
    output of the exact pass is the input when no row without a DOI
    comes before a row with one. *)
Theorem dedup_without_collisions
    (tfidf_cosine : list string → result (nat → nat → Q))
    (papers : list Paper) (m : nat → nat → Q) :
  papers ≠ [] →
  NoDup (Py.lower <$> dois papers) →
  tfidf_cosine (fillna paper_title papers) = Ok m →
  (∀ i j, i < j < length papers → (m i j <= 8 # 10)%Q) →
  remove_duplicates paper_title tfidf_cosine papers = Ok papers
  ∧ save_results_to_csv papers
    = Ok (filter (λ p, notna p) papers ++ filter (λ p, isna p) papers)
  ∧ filter (λ p, notna p) papers ++ filter (λ p, isna p) papers ≡ₚ papers
  ∧ (∀ l1 l2, papers = l1 ++ l2 →
              Forall (λ p, notna p = true) l1 → Forall (λ p, isna p = true) l2 →
              save_results_to_csv papers = Ok papers).
Proof.
  intros Hne Hdois Hm Hnone.
  assert (save_results_to_csv papers
          = Ok (filter (λ p, notna p) papers ++ filter (λ p, isna p) papers)) as Hcsv.
  { rewrite save_results_to_csv_ok by done. unfold drop_duplicates.
    rewrite drop_duplicates_from_id; [done| |by intros ? _ ?%elem_of_nil].
    rewrite doi_filter_notna. apply (NoDup_fmap_2 _). by apply NoDup_fmap_1 in Hdois. }
  split; [by apply (remove_duplicates_unchanged paper_title tfidf_cosine papers m)|].
  split; [done|]. split; [apply notna_isna_permutation|].
  intros l1 l2 -> Hl1 Hl2. rewrite Hcsv. f_equal.
  assert (Forall (λ p, notna p = false) l2) as Hl2'.
  { eapply Forall_impl; [exact Hl2|]. intros p Hp. simpl in *.
    rewrite isna_notna in Hp. by apply negb_true_iff. }
  assert (Forall (λ p, isna p = false) l1) as Hl1'.
  { eapply Forall_impl; [exact Hl1|]. intros p Hp. simpl in *.
    by rewrite isna_notna, Hp. }
  rewrite !filter_app.
  rewrite (filter_bool_all (λ p, notna p) l1 Hl1), (filter_bool_all (λ p, isna p) l2 Hl2).
  rewrite (filter_bool_none (λ p, notna p) l2 Hl2'), (filter_bool_none (λ p, isna p) l1 Hl1').
  by rewrite app_nil_r.
Qed.

Lemma dedup_without_collisions_witness :
  doi_rows_first ≠ []
  ∧ NoDup (Py.lower <$> dois doi_rows_first)
  ∧ unlike_cosine (fillna paper_title doi_rows_first) = Ok unlike_matrix
  ∧ remove_duplicates paper_title unlike_cosine doi_rows_first = Ok doi_rows_first
  ∧ save_results_to_csv doi_rows_first = Ok doi_rows_first.
Proof.
  assert (NoDup (Py.lower <$> dois doi_rows_first)) as Hdois.
  { apply NoDup_singleton. }
  assert (∀ i j, i < j < length doi_rows_first → (unlike_matrix i j <= 8 # 10)%Q) as Hnone.
  { intros i j Hij. unfold unlike_matrix. rewrite bool_decide_eq_false_2 by lia. discriminate. }
  destruct (dedup_without_collisions unlike_cosine doi_rows_first unlike_matrix
              ltac:(discriminate) Hdois eq_refl Hnone) as (Hsim & _ & _ & Hsame).
  split; [discriminate|]. split; [exact Hdois|]. split; [reflexivity|].
  split; [exact Hsim|].
  apply (Hsame [with_doi "10.1/x" "Protein folding"] [without_doi "Graph theory"] eq_refl);
    repeat constructor.
Defined.

(** C2 as it is worded fails: a row without a DOI that comes first is
    moved behind the rows with a DOI by the exact pass, although no two
    DOI values are equal and the similarity pass changes nothing. *)
Lemma exact_pass_moves_rows_without_doi :
  NoDup (Py.lower <$> dois doi_rows_last)
  ∧ remove_duplicates paper_title unlike_cosine doi_rows_last = Ok doi_rows_last
  ∧ save_results_to_csv doi_rows_last = Ok doi_rows_first
  ∧ doi_rows_first ≠ doi_rows_last.
Proof.
  split; [apply NoDup_singleton|]. split; [reflexivity|]. split; [reflexivity|].
  discriminate.
Qed.

(** ** The accessors of the key derivation never miss *)

Lemma rstrip_all_chars cls s : all_chars cls (Py.rstrip cls s) = all_chars cls s.
Proof.
  induction s as [|c s IH]; [done|]. simpl.
  destruct (Py.rstrip cls s) as [|c' r] eqn:Hr.
  - apply rstrip_empty_iff in Hr. rewrite Hr, andb_true_r.
    destruct (cls c) eqn:Hc; simpl; by rewrite ?Hc.
  - by rewrite <- IH.
Qed.

Lemma split_ws_not_nil s : all_chars Py.is_space s = false → Py.split_ws s ≠ [].
Proof.
  induction s as [|c s IH]; [done|]. simpl.
  destruct (Py.is_space c); simpl; [done|]. intros _.
  destruct s as [|c' s]; [done|].
  destruct (Py.is_space c'); [done|]. by destruct (Py.split_ws _).
Qed.

(** [first_author.split()[-1]] is taken of a list that is not empty. *)
Lemma split_ws_strip_not_nil s : Py.strip s ≠ "" → Py.split_ws (Py.strip s) ≠ [].
Proof.
  intros Hs. apply split_ws_not_nil.
  unfold Py.strip. rewrite rstrip_all_chars, lstrip_all_chars.
  apply not_true_iff_false. by rewrite <- strip_empty_iff.
Qed.

Lemma last_name_from_list a :
  a ≠ "" →
  Py.strip (first_of (Py.split_on is_comma_or_semicolon (Py.strip a))) ≠ "" →
  ∃ author_parts rest w,
    Py.split_on is_comma_or_semicolon (Py.strip a) = author_parts :: rest
    ∧ last (Py.split_ws (Py.strip author_parts)) = Some w
    ∧ last_name (Some a) = w.
Proof.
  intros Ha Hfirst. unfold last_name, nonempty.
  rewrite bool_decide_eq_false_2 by done. simpl.
  rewrite bool_decide_eq_false_2 by done. simpl.
  destruct (Py.split_on _ _) as [|author_parts rest] eqn:Hsplit.
  { by destruct (split_on_not_nil is_comma_or_semicolon (Py.strip a)). }
  unfold first_of, last_of in *. simpl in *.
  pose proof (split_ws_strip_not_nil author_parts Hfirst) as Hws.
  destruct (last (Py.split_ws (Py.strip author_parts))) as [w|] eqn:Hlast.
  - by exists author_parts, rest, w.
  - by apply last_None in Hlast.
Qed.

(** ** The sinks at work on small inputs *)

Lemma remove_duplicates_raises {Row} (row_title : Row → option string)
    (tfidf_cosine : list string → result (nat → nat → Q)) (df : list Row) e :
  tfidf_cosine (fillna row_title df) = Raise e →
  remove_duplicates row_title tfidf_cosine df = Raise e.
Proof. intros He. unfold remove_duplicates. by rewrite He. Qed.

Example same_key_twice_in_one_export :
  snd (save_bibtex_loop [paper1; paper1; paper1] ∅)
  = {[ "Smith2021a"; "Smith2021a1"; "Smith2021a2" ]}.
Proof. by vm_compute. Qed.

Example blank_papers_share_a_key :
  fst (save_bibtex_loop [blank_paper; blank_paper] ∅)
  = paper_to_bibtex blank_paper None +:+ paper_to_bibtex blank_paper None.
Proof. by vm_compute. Qed.

(** * Further properties *)

(** ** The shape of a citation key *)

Lemma keep_app cls (a b : string) : Py.keep cls (a +:+ b) = Py.keep cls a +:+ Py.keep cls b.
Proof.
  induction a as [|c a IH]; [done|]. rewrite app_cons. simpl.
  destruct (cls c); by rewrite ?app_cons, IH.
Qed.

Lemma keep_all cls s : all_chars cls s = true → Py.keep cls s = s.
Proof.
  induction s as [|c s IH]; [done|]. simpl.
  intros [-> Hs]%andb_true_iff. by rewrite IH.
Qed.

Lemma take_not_empty k s : 0 < k → s ≠ "" → Py.take k s ≠ "".
Proof. intros Hk Hs. destruct k, s; simpl; [lia | lia | done | done]. Qed.

Lemma pretty_N_go_grows x s : String.length s ≤ String.length (pretty_N_go x s).
Proof.
  revert s. induction (N.lt_wf_0 x) as [x _ IH]. intros s.
  destruct (decide (x = 0%N)) as [->|Hx]; [by rewrite pretty_N_go_0|].
  rewrite pretty_N_go_step by lia.
  etrans; [|apply IH; apply N.div_lt; lia]. simpl. lia.
Qed.

Lemma pretty_N_go_length (d : nat) x s :
  (x < 10 ^ N.of_nat d)%N → String.length (pretty_N_go x s) ≤ String.length s + d.
Proof.
  revert x s. induction d as [|d IH]; intros x s Hx.
  - assert (x = 0%N) as -> by (simpl in Hx; lia). rewrite pretty_N_go_0. lia.
  - destruct (decide (x = 0%N)) as [->|Hx0]; [rewrite pretty_N_go_0; lia|].
    rewrite pretty_N_go_step by lia.
    etrans; [apply IH|simpl; lia].
    apply N.Div0.div_lt_upper_bound.
    rewrite Nat2N.inj_succ, N.pow_succ_r' in Hx. lia.
Qed.

Lemma str_not_empty (n : Z) : Py.str n ≠ "".
Proof.
  assert (∀ p, pretty (N.pos p) ≠ "") as Hpos.
  { intros p. unfold pretty, pretty_N. case_decide; [done|].
    rewrite pretty_N_go_step by lia. intros Hp%(f_equal String.length).
    pose proof (pretty_N_go_grows (N.pos p `div` 10)
                  (String (pretty_N_char (N.pos p `mod` 10)) "")) as Hle.
    rewrite Hp in Hle. simpl in Hle. lia. }
  unfold Py.str, pretty, pretty_Z. destruct n as [|p|p]; [done|apply Hpos|done].
Qed.

(** Below ten to the fiftieth, [str] has at most 50 characters. *)
Lemma str_length_50 (n : Z) : (0 ≤ n < 10 ^ 50)%Z → String.length (Py.str n) ≤ 50.
Proof.
  intros Hn. unfold Py.str, pretty, pretty_Z.
  destruct n as [|p|p]; [simpl; lia| |lia].
  unfold pretty, pretty_positive, pretty, pretty_N. case_decide; [done|].
  etrans; [apply (pretty_N_go_length 50)|simpl; lia].
  apply N2Z.inj_lt. rewrite N2Z.inj_pow. simpl N.of_nat. lia.
Qed.

Lemma year_part_word year :
  year_part year ≠ "" ∧ Py.keep Py.is_word (year_part year) ≠ "".
Proof.
  unfold year_part. destruct year as [y|]; [|done].
  destruct (y =? 0)%Z; [done|]. split; [apply str_not_empty|].
  unfold Py.str, pretty, pretty_Z. destruct y as [|p|p]; [done| |].
  - rewrite keep_all; [apply (str_not_empty (Z.pos p))|].
    apply (all_chars_impl Py.is_digit); [apply digit_is_word|].
    by apply (str_digits (Z.pos p)).
  - rewrite keep_app. change (Py.keep Py.is_word "-") with "". rewrite app_nil.
    rewrite keep_all; [apply (str_not_empty (Z.pos p))|].
    apply (all_chars_impl Py.is_digit); [apply digit_is_word|].
    by apply (str_digits (Z.pos p)).
Qed.

Lemma base_key_not_empty title authors year : base_key title authors year ≠ "".
Proof.
  unfold base_key. apply take_not_empty; [lia|].
  rewrite !keep_app. intros [_ [Hy _]%app_eq_empty]%app_eq_empty.
  by destruct (year_part_word year) as [_ ?].
Qed.

Lemma suffixed_not_empty base s : suffixed base s ≠ "".
Proof.
  unfold suffixed. case_match; intros [_ Hs]%app_eq_empty; by apply str_not_empty in Hs.
Qed.

(** The suffix the loop stops at is no larger than [tails_count reg + 1]. *)
Lemma clean_bibtex_key_suffix_bound title authors year doi (reg : gset string) :
  let base := base_key title authors year in
  let key := clean_bibtex_key title authors year doi (Some reg) in
  key = base ∨ ∃ n : nat, n ≤ tails_count reg ∧ key = suffixed base (1 + Z.of_nat n).
Proof.
  intros base key.
  destruct (clean_bibtex_key_spec title authors year doi reg)
    as [_ [[Hkey _]|[_ (n & Hkey & Hbelow)]]]; [by left|].
  right. exists n. split; [|done].
  destruct (some_suffix_free reg base) as (n0 & Hn0 & Hfree).
  destruct (decide (n ≤ n0)) as [?|Hgt]; [lia|].
  destruct Hfree. apply Hbelow. lia.
Qed.

Lemma citation_key_not_empty title authors year doi (reg : gset string) :
  clean_bibtex_key title authors year doi (Some reg) ≠ "".
Proof.
  destruct (clean_bibtex_key_spec title authors year doi reg)
    as [_ [[Hkey _]|[_ (n & Hkey & _)]]]; rewrite Hkey.
  - apply base_key_not_empty.
  - apply suffixed_not_empty.
Qed.

(** A key is never empty and is made of letters, digits and
    underscores only, whatever the paper and the registry: it holds no
    comma, brace or blank that would break the entry. *)
Theorem citation_key_is_a_word (title authors : option string) (year : option Z)
    (doi : option string) (reg : gset string) :
  clean_bibtex_key title authors year doi (Some reg) ≠ ""
  ∧ all_chars Py.is_word (clean_bibtex_key title authors year doi (Some reg)) = true
  ∧ Py.find_char "," (clean_bibtex_key title authors year doi (Some reg)) = None
  ∧ all_chars (λ c, negb (is_brace c || Py.is_space c))
              (clean_bibtex_key title authors year doi (Some reg)) = true.
Proof.
  set (key := clean_bibtex_key title authors year doi (Some reg)).
  assert (all_chars Py.is_word key = true) as Hword by apply clean_bibtex_key_word.
  split; [|split; [done|split]].
  - apply citation_key_not_empty.
  - clear -Hword. induction key as [|c key IH]; [done|]. simpl in *.
    apply andb_true_iff in Hword as [Hc Hkey].
    rewrite bool_decide_eq_false_2; [by rewrite IH|]. by intros ->.
  - apply (all_chars_impl Py.is_word); [|done].
    intros c Hc. apply negb_true_iff, orb_false_iff. split.
    + unfold is_brace. apply orb_false_iff.
      split; apply bool_decide_eq_false; by intros ->.
    + destruct (Py.is_space c) eqn:Hs; [|done]. exfalso. revert Hc Hs.
      unfold Py.is_word, Py.is_alnum, Py.is_digit, Py.is_upper, Py.is_lower, Py.is_space.
      case_bool_decide as Hu; [by subst c|].
      intros Hc Hs. apply orb_true_iff in Hc as [Hc|?]; [|done].
      repeat (apply orb_true_iff in Hc as [Hc|Hc]);
        apply andb_true_iff in Hc as [?%Nat.leb_le ?%Nat.leb_le];
        (apply orb_true_iff in Hs as [Hs|Hs];
         apply andb_true_iff in Hs as [?%Nat.leb_le ?%Nat.leb_le]); lia.
Qed.

(** A key has at most 50 characters, as long as the registered keys
    have fewer than ten to the fiftieth characters altogether. *)
Theorem citation_key_at_most_50 (title authors : option string) (year : option Z)
    (doi : option string) (reg : gset string) :
  (Z.of_nat (tails_count reg) + 1 < 10 ^ 50)%Z →
  String.length (clean_bibtex_key title authors year doi (Some reg)) ≤ 50.
Proof.
  intros Hreg.
  destruct (clean_bibtex_key_suffix_bound title authors year doi reg)
    as [->|(n & Hn & ->)]; [apply base_key_length|].
  set (base := base_key title authors year). set (s := (1 + Z.of_nat n)%Z).
  assert (String.length (Py.str s) ≤ 50) as Hs by (apply str_length_50; lia).
  destruct (decide (String.length (base +:+ Py.str s) ≤ 50)) as [Hshort|Hlong].
  - by rewrite suffixed_short.
  - destruct (suffixed_long base s ltac:(lia) Hs) as [_ ->]. done.
Qed.

Lemma citation_key_at_most_50_witness :
  (Z.of_nat (tails_count {[ long_base ]}) + 1 < 10 ^ 50)%Z
  ∧ String.length (clean_bibtex_key (Some long_title) (Some "Li") (Some 2021%Z) None
                                    (Some {[ long_base ]})) ≤ 50.
Proof.
  split; [by vm_compute|].
  apply citation_key_at_most_50. by vm_compute.
Defined.

(** ** The text of an entry *)

Lemma rstrip_id cls s : all_chars (λ c, negb (cls c)) s = true → Py.rstrip cls s = s.
Proof.
  induction s as [|c s IH]; [done|]. simpl.
  intros [Hc Hs]%andb_true_iff. rewrite IH by done.
  apply negb_true_iff in Hc. rewrite Hc. by destruct s.
Qed.

Lemma word_is_not_comma_or_nl c : Py.is_word c = true → negb (is_comma_or_nl c) = true.
Proof.
  intros Hc. apply negb_true_iff, orb_false_iff.
  split; apply bool_decide_eq_false; by intros ->.
Qed.

Lemma paper_key_some paper existing_keys :
  paper_key paper existing_keys = paper_key paper (Some (default ∅ existing_keys)).
Proof. by destruct existing_keys. Qed.

Lemma blank_or_line_app (a b : string) :
  a = "" ∨ (∃ body, a = body +:+ "}," +:+ nl) →
  b = "" ∨ (∃ body, b = body +:+ "}," +:+ nl) →
  a +:+ b = "" ∨ (∃ body, a +:+ b = body +:+ "}," +:+ nl).
Proof.
  intros [->|[x ->]] [->|[y ->]]; rewrite ?app_nil, ?app_empty_r; eauto.
  right. exists ((x +:+ "}," +:+ nl) +:+ y). by rewrite !app_assoc'.
Qed.

Lemma field_line_ends name value : ∃ body, field_line name value = body +:+ "}," +:+ nl.
Proof.
  exists ("  " +:+ name +:+ " = {" +:+ value). unfold field_line. by rewrite !app_assoc'.
Qed.

(** The lines of an entry, when there are any, end in [},] and a line
    break. *)
Lemma bibtex_fields_blank_or_line paper :
  bibtex_fields paper = "" ∨ ∃ body, bibtex_fields paper = body +:+ "}," +:+ nl.
Proof.
  unfold bibtex_fields.
  repeat apply blank_or_line_app; repeat case_match; auto using field_line_ends.
Qed.

Lemma titled_paper_has_fields paper : title paper ≠ "" → bibtex_fields paper ≠ "".
Proof.
  intros Ht. unfold bibtex_fields, nonempty. rewrite bool_decide_eq_false_2 by done.
  simpl. unfold field_line. by rewrite !app_cons.
Qed.

(** An entry with lines is the key line, the lines without the comma
    and the line break that end the last of them, and the closing brace.
    An entry without any line also loses the comma after its key. *)
Theorem bibtex_entry_text (paper : Paper) (existing_keys : option (gset string)) :
  (bibtex_fields paper = "" ∧
   paper_to_bibtex paper existing_keys
   = "@article{" +:+ paper_key paper existing_keys +:+ nl +:+ "}" +:+ nl +:+ nl)
  ∨ (∃ body, bibtex_fields paper = body +:+ "}," +:+ nl ∧
             paper_to_bibtex paper existing_keys
             = "@article{" +:+ paper_key paper existing_keys +:+ "," +:+ nl
               +:+ body +:+ "}" +:+ nl +:+ "}" +:+ nl +:+ nl).
Proof.
  unfold paper_to_bibtex. cbv zeta.
  set (key := paper_key paper existing_keys).
  destruct (bibtex_fields_blank_or_line paper) as [Hblank|[body Hbody]].
  - left. split; [done|]. rewrite Hblank, app_empty_r.
    replace ("@article{" +:+ key +:+ "," +:+ nl)
      with (("@article{" +:+ key) +:+ "," +:+ nl) by (by rewrite !app_assoc').
    rewrite rstrip_all by done.
    assert (Py.rstrip is_comma_or_nl key = key) as Hkey.
    { apply rstrip_id, (all_chars_impl Py.is_word); [apply word_is_not_comma_or_nl|].
      unfold key. rewrite paper_key_some. apply clean_bibtex_key_word. }
    rewrite rstrip_app; rewrite Hkey; [by rewrite !app_assoc'|].
    unfold key. rewrite paper_key_some. apply citation_key_not_empty.
  - right. exists body. split; [done|]. rewrite Hbody.
    replace ("@article{" +:+ key +:+ "," +:+ nl +:+ body +:+ "}," +:+ nl)
      with (("@article{" +:+ key +:+ "," +:+ nl +:+ body) +:+ "}," +:+ nl)
      by (by rewrite !app_assoc').
    rewrite rstrip_app by done. by rewrite !app_assoc'.
Qed.

(** ** Escaping of braces *)

Lemma replace_app c r (a b : string) :
  Py.replace c r (a +:+ b) = Py.replace c r a +:+ Py.replace c r b.
Proof.
  induction a as [|x a IH]; [done|]. rewrite app_cons. simpl.
  case_bool_decide; by rewrite ?app_cons, ?app_assoc', IH.
Qed.

Lemma escape_braces_cons c s :
  escape_braces (String c s)
  = if is_brace c then String "\" (String c (escape_braces s))
    else String c (escape_braces s).
Proof.
  unfold escape_braces, is_brace. simpl.
  case_bool_decide as Hopen; simpl.
  - subst c. by rewrite app_nil.
  - case_bool_decide as Hclose; [|done]. subst c. by rewrite !app_cons, app_nil.
Qed.

Lemma backslash_braces_escaped after s : braces_escaped after (backslash_braces s) = true.
Proof.
  revert after. induction s as [|c s IH]; intros after; [done|]. simpl.
  destruct (is_brace c) eqn:Hc; simpl; rewrite ?Hc; simpl; rewrite IH;
    by destruct after.
Qed.

(** The two [replace] calls amount to one pass that puts a backslash in
    front of each brace: in the result every brace follows a backslash,
    and a text without braces is left as it is. *)
Theorem braces_get_a_backslash (s : string) :
  escape_braces s = backslash_braces s
  ∧ braces_escaped false (escape_braces s) = true
  ∧ (all_chars (λ c, negb (is_brace c)) s = true → escape_braces s = s).
Proof.
  assert (escape_braces s = backslash_braces s) as Heq.
  { induction s as [|c s IH]; [done|]. rewrite escape_braces_cons. simpl. by rewrite IH. }
  split; [done|]. split; [rewrite Heq; apply backslash_braces_escaped|].
  rewrite Heq. clear Heq. induction s as [|c s IH]; [done|]. simpl.
  intros [Hc Hs]%andb_true_iff. apply negb_true_iff in Hc. by rewrite Hc, IH.
Qed.

(** ** One export: the keys of a bibliography file *)

Lemma save_bibtex_loop_cons paper rest (reg : gset string) :
  save_bibtex_loop (paper :: rest) reg
  = (fst (save_bibtex_step paper reg)
     +:+ fst (save_bibtex_loop rest (snd (save_bibtex_step paper reg))),
     snd (save_bibtex_loop rest (snd (save_bibtex_step paper reg)))).
Proof.
  simpl. destruct (save_bibtex_step paper reg) as [entry reg']. simpl.
  by destruct (save_bibtex_loop rest reg').
Qed.

Lemma save_bibtex_step_entry paper (reg : gset string) :
  fst (save_bibtex_step paper reg) = paper_to_bibtex paper (Some reg).
Proof. unfold save_bibtex_step. cbv zeta. by case_match. Qed.

Lemma save_bibtex_loop_text papers (reg : gset string) :
  fst (save_bibtex_loop papers reg) = concat_str (issued_entries papers reg).
Proof.
  revert reg. induction papers as [|paper rest IH]; intros reg; [done|].
  rewrite save_bibtex_loop_cons. simpl. by rewrite save_bibtex_step_entry, IH.
Qed.

Lemma issued_keys_fresh papers (reg : gset string) :
  Forall (λ p, bibtex_fields p ≠ "") papers →
  NoDup (issued_keys papers reg)
  ∧ (∀ k, k ∈ issued_keys papers reg → k ∉ reg)
  ∧ snd (save_bibtex_loop papers reg) = list_to_set (issued_keys papers reg) ∪ reg.
Proof.
  intros Hfields. revert reg.
  induction Hfields as [|paper rest Hpaper _ IH]; intros reg.
  { split; [constructor|]. split; [by intros k ?%elem_of_nil|].
    simpl. by rewrite (left_id_L ∅ (∪)). }
  rewrite save_bibtex_loop_cons. simpl.
  rewrite (save_bibtex_step_registers paper reg Hpaper). simpl.
  set (key := paper_key paper (Some reg)).
  destruct (IH ({[ key ]} ∪ reg)) as (Hnodup & Hfresh & Hreg).
  assert (key ∉ reg) as Hkey by apply clean_bibtex_key_spec.
  split; [|split].
  - apply NoDup_cons. split; [|done].
    intros Hin. apply (Hfresh key Hin). apply elem_of_union_l. by apply elem_of_singleton.
  - intros k [->|Hk]%elem_of_cons; [done|].
    intros Hin. apply (Hfresh k Hk). by apply elem_of_union_r.
  - rewrite Hreg. simpl.
    by rewrite (assoc_L (∪)), (comm_L (∪) (list_to_set _) {[ key ]}).
Qed.

Lemma issued_entries_start papers (reg : gset string) :
  Forall (λ p, bibtex_fields p ≠ "") papers →
  Forall2 (λ key entry, ∃ rest, entry = "@article{" +:+ key +:+ String "," rest)
          (issued_keys papers reg) (issued_entries papers reg).
Proof.
  intros Hfields. revert reg.
  induction Hfields as [|paper rest Hpaper _ IH]; intros reg; [constructor|].
  simpl. constructor; [by apply paper_to_bibtex_shape|].
  apply IH.
Qed.

Lemma length_issued_keys papers (reg : gset string) :
  length (issued_keys papers reg) = length papers.
Proof.
  revert reg. induction papers as [|p l IH]; intros reg; [done|]. simpl. by rewrite IH.
Qed.

(** In one export of papers that each have at least one line (a title
    that is not empty is enough), no key is given out twice: the file is
    the header and the entries, each entry starts with its key, the keys
    are pairwise different, and the registry ends as the set of them. *)
Theorem exported_keys_pairwise_distinct (now : string) (papers : list Paper) :
  Forall (λ p, bibtex_fields p ≠ "") papers →
  save_bibtex now papers
  = Ok (bibtex_header now papers +:+ concat_str (issued_entries papers ∅))
  ∧ Forall2 (λ key entry, ∃ rest, entry = "@article{" +:+ key +:+ String "," rest)
            (issued_keys papers ∅) (issued_entries papers ∅)
  ∧ NoDup (issued_keys papers ∅)
  ∧ snd (save_bibtex_loop papers ∅) = list_to_set (issued_keys papers ∅)
  ∧ size (snd (save_bibtex_loop papers ∅)) = length papers.
Proof.
  intros Hfields.
  destruct (issued_keys_fresh papers ∅ Hfields) as (Hnodup & _ & Hreg).
  pose proof (length_issued_keys papers ∅) as Hlen.
  split; [unfold save_bibtex; simpl; by rewrite save_bibtex_loop_text|].
  split; [by apply issued_entries_start|]. split; [done|].
  rewrite Hreg, union_empty_r_L. split; [done|].
  by rewrite size_list_to_set.
Qed.

Lemma exported_keys_pairwise_distinct_witness :
  Forall (λ p, bibtex_fields p ≠ "") [paper1; paper1; paper1]
  ∧ NoDup (issued_keys [paper1; paper1; paper1] ∅)
  ∧ issued_keys [paper1; paper1; paper1] ∅ = ["Smith2021a"; "Smith2021a1"; "Smith2021a2"].
Proof.
  assert (Forall (λ p, bibtex_fields p ≠ "") [paper1; paper1; paper1]) as Hfields.
  { repeat constructor; by vm_compute. }
  split; [exact Hfields|].
  split; [apply (exported_keys_pairwise_distinct "" _ Hfields)|by vm_compute].
Defined.

(** ** The tabular sink applied again, and what it drops *)

Lemma drop_duplicates_from_sublist seen df : drop_duplicates_from seen df `sublist_of` df.
Proof.
  revert seen. induction df as [|p df IH]; intros seen; simpl; [constructor|].
  case_bool_decide; [by apply sublist_cons | by apply sublist_skip].
Qed.

Lemma filter_notna_app_isna (a b : list Paper) :
  (∀ p, p ∈ a → notna p = true) → (∀ p, p ∈ b → isna p = true) →
  filter (λ p, notna p) (a ++ b) = a ∧ filter (λ p, isna p) (a ++ b) = b.
Proof.
  intros Ha Hb. rewrite !filter_app.
  rewrite (filter_bool_all (λ p, notna p) a), (filter_bool_all (λ p, isna p) b),
    (filter_bool_none (λ p, notna p) b), (filter_bool_none (λ p, isna p) a).
  - by rewrite app_nil_r.
  - apply Forall_forall. intros p Hp. by rewrite isna_notna, (Ha p Hp).
  - apply Forall_forall. intros p Hp. specialize (Hb p Hp).
    rewrite isna_notna in Hb. by apply negb_true_iff.
  - by apply Forall_forall.
  - by apply Forall_forall.
Qed.

Lemma exact_pass_frame_not_empty p (l : list Paper) :
  drop_duplicates (filter (λ p, notna p) (p :: l)) ++ filter (λ p, isna p) (p :: l) ≠ [].
Proof.
  rewrite !filter_bool_cons, isna_notna. destruct (notna p); simpl.
  - done.
  - by intros [_ ?]%app_eq_nil.
Qed.

(** The frame returned by the tabular sink is a fixed point of it: a
    second pass returns it unchanged. *)
Theorem exact_pass_idempotent (papers final_df : list Paper) :
  save_results_to_csv papers = Ok final_df →
  save_results_to_csv final_df = Ok final_df.
Proof.
  intros Hok. destruct (decide (papers = [])) as [->|Hne]; [done|].
  rewrite save_results_to_csv_ok in Hok by done. injection Hok as <-.
  set (kept := drop_duplicates (filter (λ p, notna p) papers)).
  set (rest := filter (λ p, isna p) papers).
  assert (∀ p, p ∈ kept → notna p = true) as Hkept.
  { intros p [Hp _]%drop_duplicates_from_elem. by apply notna_of_filter in Hp as [? _]. }
  assert (∀ p, p ∈ rest → isna p = true) as Hrest.
  { intros p [Hp _]%list_elem_of_filter. by apply Is_true_true. }
  destruct (filter_notna_app_isna kept rest Hkept Hrest) as [Hf1 Hf2].
  rewrite save_results_to_csv_ok.
  - rewrite Hf1, Hf2. f_equal. f_equal. unfold drop_duplicates.
    apply drop_duplicates_from_id; [|by intros ? _ ?%elem_of_nil].
    apply drop_duplicates_from_nodup.
  - destruct papers as [|p l]; [done|]. apply exact_pass_frame_not_empty.
Qed.

Lemma exact_pass_idempotent_witness :
  save_results_to_csv doi_rows_last = Ok doi_rows_first
  ∧ save_results_to_csv doi_rows_first = Ok doi_rows_first.
Proof.
  split; [reflexivity|].
  by apply (exact_pass_idempotent doi_rows_last doi_rows_first).
Defined.

(** The tabular sink neither invents nor repeats a row: what it returns
    is, up to the order of the two groups, part of its input; and it
    fails on the empty list only. *)
Theorem exact_pass_returns_part_of_input (papers : list Paper) :
  (save_results_to_csv papers = Raise APIError ↔ papers = [])
  ∧ ∀ final_df, save_results_to_csv papers = Ok final_df →
                final_df ⊆+ papers ∧ length final_df ≤ length papers
                ∧ final_df ≠ [].
Proof.
  split.
  { split; [|by intros ->]. destruct papers; [done|]. by rewrite save_results_to_csv_ok. }
  intros final_df Hok. destruct (decide (papers = [])) as [->|Hne]; [done|].
  rewrite save_results_to_csv_ok in Hok by done. injection Hok as <-.
  assert (drop_duplicates (filter (λ p, notna p) papers) ++ filter (λ p, isna p) papers
          ⊆+ papers) as Hsub.
  { rewrite <- (notna_isna_permutation papers) at 3.
    apply submseteq_app; [|done].
    apply sublist_submseteq, drop_duplicates_from_sublist. }
  split; [done|]. split; [by apply submseteq_length|].
  destruct papers as [|p l]; [done|]. apply exact_pass_frame_not_empty.
Qed.

(** ** More on the normalisation of an entry *)

(** A dictionary gives a paper, unless its count of citations is
    infinite: then the validator raises [OverflowError]. The title of
    the paper is empty in one case only: the raw title is a string that
    is not empty and holds white space only. It is the sentinel when the
    raw title is no string or the empty string. *)
Theorem title_empty_only_for_blank_titles (d : list (string * pyval)) :
  if infinite_count d then validate_paper_entry (PDict d) None = Raise OverflowError
  else ∃ p, validate_paper_entry (PDict d) None = Ok (Some p)
            ∧ (title p = "" ↔ ∃ s, raw_title d = PStr s ∧ s ≠ ""
                                   ∧ all_chars Py.is_space s = true)
            ∧ ((∀ s, raw_title d = PStr s → s = "") → title p = "Unknown Title").
Proof.
  pose proof (build_paper_result d) as Hb.
  pose proof (validate_paper_entry_result d None) as Hv.
  destruct (infinite_count d); [done|].
  destruct Hb as (p & Hb & _ & Ht & _).
  destruct Hv as (p' & Hb' & Hv). rewrite Hb in Hb'. injection Hb' as <-.
  exists p. split; [done|]. rewrite Ht. split; [|apply title_sentinel].
  unfold validated_title.
  destruct (raw_title d) as [| b | z | q | s | l | d'] eqn:Hraw;
    try (split; [done | by intros (s & ? & _)]).
  simpl. case_bool_decide as Hs; simpl.
  - split; [done|]. intros (s' & [= <-] & ? & _). done.
  - rewrite strip_empty_iff. split.
    + intros Hall. by exists s.
    + by intros (s' & [= <-] & _ & ?).
Qed.

(** Required fields. A non-dictionary entry is always turned down. For
    a dictionary the test of the count of citations comes first: an
    infinite count raises [OverflowError]. Otherwise a name that is none
    of the keys of a paper turns the entry down; the names [title] and
    [citedby-count] do not turn it down; and [doi] turns it down exactly
    when it has no DOI string. *)
Theorem required_fields_gate (d : list (string * pyval)) (fields : list string) :
  (∀ entry, (∀ d', entry ≠ PDict d') → validate_paper_entry entry (Some fields) = Ok None)
  ∧ (if infinite_count d
     then validate_paper_entry (PDict d) (Some fields) = Raise OverflowError
     else ((∃ f, f ∈ fields ∧ f ∉ paper_fields) →
           validate_paper_entry (PDict d) (Some fields) = Ok None)
          ∧ (Forall (λ f, f = "title" ∨ f = "citedby-count") fields →
             ∃ p, validate_paper_entry (PDict d) (Some fields) = Ok (Some p))
          ∧ (validate_paper_entry (PDict d) (Some ["doi"]) = Ok None
             ↔ ∀ s, raw_doi d ≠ PStr s)).
Proof.
  split.
  { intros entry Hentry. destruct entry as [| | | | | |d']; try done. by destruct (Hentry d'). }
  pose proof (build_paper_result d) as Hb.
  pose proof (validate_paper_entry_result d (Some fields)) as Hv.
  destruct (infinite_count d); [done|]. clear Hv.
  destruct Hb as (p & Hb & Hdoi & _).
  unfold validate_paper_entry. rewrite Hb. simpl.
  split; [|split].
  - intros (f & Hf & Hnot).
    assert (existsb (field_missing p) fields = true) as ->; [|done].
    apply existsb_exists. exists f. split; [by apply list_elem_of_In|].
    unfold field_missing. unfold paper_fields in Hnot.
    repeat (case_bool_decide;
            [subst f; destruct Hnot; repeat (first [by left | right])|]).
    done.
  - intros Hall.
    assert (existsb (field_missing p) fields = false) as ->; [|by eexists].
    apply not_true_iff_false. intros (f & Hf%list_elem_of_In & Hmiss)%existsb_exists.
    apply (proj1 (Forall_forall _ _) Hall) in Hf as [->| ->]; done.
  - unfold field_missing. simpl. rewrite orb_false_r, Hdoi. unfold validated_doi.
    destruct (raw_doi d) as [| b | z | q | s | l | d'];
      try (rewrite bool_decide_eq_true_2 by done; split; [by intros _ ? | done]).
    rewrite bool_decide_eq_false_2 by done. split; [done|]. intros Hs. by destruct (Hs s).
Qed.

(** Normalising a normalised paper again loses its year: the year is
    written as an integer and read from a string only. The count of
    citations comes back unchanged, the title trimmed (the sentinel for
    the empty title), and the DOI as it was unless it is empty. *)
Theorem normalising_twice_loses_the_year (p : Paper) :
  ∃ p', validate_paper_entry (paper_as_dict p) None = Ok (Some p')
        ∧ year p' = None
        ∧ citedby_count p' = citedby_count p
        ∧ title p' = (if bool_decide (title p = "") then "Unknown Title"
                      else Py.strip (title p))
        ∧ doi p' = (if bool_decide (doi p = Some "") then None else doi p).
Proof.
  destruct p as [pdoi ptitle pauthors pyear ppub purl pcited].
  unfold validate_paper_entry, paper_as_dict, build_paper. simpl.
  assert (validated_year
            [("doi", optional_str pdoi); ("title", PStr ptitle);
             ("authors", optional_str pauthors);
             ("year", match pyear with Some y => PInt y | None => PNone end);
             ("publicationName", optional_str ppub); ("url", optional_str purl);
             ("citedby-count", PInt pcited)] = Ok None) as ->.
  { unfold validated_year, raw_year, py_or. simpl.
    destruct pyear as [y|]; simpl; [|done].
    destruct (y =? 0)%Z eqn:Hy; simpl; [done|]. by rewrite Hy. }
  assert (validated_cited
            [("doi", optional_str pdoi); ("title", PStr ptitle);
             ("authors", optional_str pauthors);
             ("year", match pyear with Some y => PInt y | None => PNone end);
             ("publicationName", optional_str ppub); ("url", optional_str purl);
             ("citedby-count", PInt pcited)] = Ok pcited) as ->.
  { unfold validated_cited, raw_cited, py_or. simpl.
    destruct (pcited =? 0)%Z eqn:Hc; simpl; rewrite ?Hc; simpl; [|done].
    apply Z.eqb_eq in Hc. by subst. }
  simpl. eexists. split; [done|]. simpl. split; [done|]. split; [done|]. split.
  - unfold validated_title, raw_title, py_or. simpl.
    destruct (bool_decide (ptitle = "")) eqn:Ht; simpl; rewrite ?Ht; simpl; by rewrite ?Ht.
  - unfold validated_doi, raw_doi, py_or. simpl.
    destruct pdoi as [s|]; simpl; [|done].
    destruct (bool_decide (s = "")) eqn:Hs; simpl; rewrite ?Hs; simpl.
    + apply bool_decide_eq_true in Hs. subst s. by rewrite bool_decide_eq_true_2.
    + apply bool_decide_eq_false in Hs.
      rewrite bool_decide_eq_false_2; [done|]. by intros [= ->].
Qed.

(** ** Screening by key words *)

Lemma check_criteria_loop_existsb tl cs include :
  check_criteria_loop tl cs include
  = (if existsb (criterion_matches tl) cs then include else negb include).
Proof.
  induction cs as [|c cs IH]; simpl; [done|].
  by destruct (criterion_matches tl c).
Qed.

Lemma existsb_elem_of {A} (f : A → bool) (l : list A) :
  existsb f l = true ↔ ∃ x, x ∈ l ∧ f x = true.
Proof.
  rewrite existsb_exists. split; intros (x & Hx & Hf); exists x; split; try done;
    by apply list_elem_of_In.
Qed.

(** What the three columns of a screened row say. [include_title] holds
    when some inclusion criterion matches the title. [exclude_title]
    holds when no exclusion criterion matches it. So a row passes when
    an inclusion criterion and an exclusion criterion both match, and no
    row passes when there is no exclusion criterion or no inclusion
    criterion. *)
Theorem screening_passes_on_both_matches (title : string) (inc exc : list criterion) :
  (include_title (screen_title title inc exc) = true
   ↔ ∃ c, c ∈ inc ∧ criterion_matches (Py.lower title) c = true)
  ∧ (exclude_title (screen_title title inc exc) = true
     ↔ ∀ c, c ∈ exc → criterion_matches (Py.lower title) c = false)
  ∧ (passed_screening (screen_title title inc exc) = true
     ↔ (∃ c, c ∈ inc ∧ criterion_matches (Py.lower title) c = true)
       ∧ (∃ c, c ∈ exc ∧ criterion_matches (Py.lower title) c = true))
  ∧ passed_screening (screen_title title inc []) = false
  ∧ passed_screening (screen_title title [] exc) = false.
Proof.
  unfold screen_title, check_criteria. simpl.
  rewrite !check_criteria_loop_existsb.
  assert (∀ cs, existsb (criterion_matches (Py.lower title)) cs = false
                ↔ ∀ c, c ∈ cs → criterion_matches (Py.lower title) c = false) as Hnone.
  { intros cs. rewrite <- not_true_iff_false, existsb_elem_of. split.
    - intros Hno c Hc. apply not_true_iff_false. intros Hm. apply Hno. by exists c.
    - intros Hall (c & Hc & Hm). by rewrite (Hall c Hc) in Hm. }
  split; [|split; [|split; [|split]]].
  - rewrite <- existsb_elem_of. by destruct (existsb _ inc).
  - rewrite <- Hnone. by destruct (existsb _ exc).
  - rewrite <- !existsb_elem_of.
    destruct (existsb _ inc), (existsb _ exc); simpl; split; try done; by intros [? ?].
  - simpl. by destruct (existsb _ inc).
  - done.
Qed.

Lemma lower_char_idemp c : Py.lower_char (Py.lower_char c) = Py.lower_char c.
Proof. by destruct c as [[] [] [] [] [] [] [] []]. Qed.

Lemma lower_idemp s : Py.lower (Py.lower s) = Py.lower s.
Proof. induction s as [|c s IH]; simpl; [done|]. by rewrite lower_char_idemp, IH. Qed.

Lemma criterion_matches_lower tl c :
  criterion_matches tl (lower_criterion c) = criterion_matches tl c.
Proof.
  destruct c as [s|terms|]; [simpl; by rewrite lower_idemp| |done].
  induction terms as [|t terms IH]; [done|].
  simpl. rewrite lower_idemp. f_equal. exact IH.
Qed.

(** Screening does not see the case of letters: the title and the
    strings of the criteria may be put in lower case without a change of
    the three columns. *)
Theorem screening_ignores_letter_case (title : string) (inc exc : list criterion) :
  screen_title title inc exc
  = screen_title (Py.lower title) (lower_criterion <$> inc) (lower_criterion <$> exc).
Proof.
  assert (∀ cs include,
            check_criteria title cs include
            = check_criteria (Py.lower title) (lower_criterion <$> cs) include) as Hsame.
  { intros cs include. unfold check_criteria. rewrite lower_idemp.
    induction cs as [|c cs IH]; simpl; [done|].
    by rewrite criterion_matches_lower, IH. }
  unfold screen_title. by rewrite <- !Hsame.
Qed.

Lemma contains_empty s : contains "" s = true.
Proof. unfold contains. by destruct s. Qed.

(** The empty string and the empty list of terms are criteria that
    match every title: with one of them among the inclusion criteria
    every title is included. *)
Theorem empty_criterion_includes_every_title (title : string) (inc exc : list criterion) :
  CStr "" ∈ inc ∨ CAll [] ∈ inc →
  include_title (screen_title title inc exc) = true.
Proof.
  intros Hin. unfold screen_title, check_criteria. simpl.
  rewrite check_criteria_loop_existsb.
  assert (existsb (criterion_matches (Py.lower title)) inc = true) as ->; [|done].
  apply existsb_elem_of. destruct Hin as [Hin|Hin]; eexists; (split; [exact Hin|]).
  - simpl. apply contains_empty.
  - done.
Qed.

Lemma empty_criterion_includes_every_title_witness :
  include_title (screen_title "Deep learning in clinical practice"
                              [CAll ["machine learning"; "healthcare"]; CStr ""] []) = true.
Proof.
  apply empty_criterion_includes_every_title. left. apply list_elem_of_In. simpl. tauto.
Defined.

(** ** The HTTP layer *)

Ltac loop_cases :=
  repeat match goal with
  | |- context [if (?a <? ?b)%Z then _ else _] => destruct (Z.ltb_spec a b)
  | |- context [if (?a <=? ?b)%Z then _ else _] => destruct (Z.leb_spec a b)
  | |- context [match validate_api_response ?f ?r with _ => _ end] =>
      destruct (validate_api_response f r) as [?|[]] eqn:?
  | |- context [match rate_limit_remaining ?r with _ => _ end] =>
      destruct (rate_limit_remaining r) eqn:?
  | |- context [if bool_decide ?P then _ else _] => destruct (bool_decide P) eqn:?
  | |- context [match Py.int ?s with _ => _ end] => destruct (Py.int s) eqn:?
  end.

Lemma request_loop_budget rfs m attempts : ∀ retries ce slept req,
  (req ≤ requests (request_loop rfs m attempts retries ce slept req)
   ≤ req + Z.to_nat (retries + 1))%nat
  ∧ (Z.to_nat (retries + 1) ≤ length attempts →
     ended (request_loop rfs m attempts retries ce slept req) ≠ Starved)
  ∧ (ended (request_loop rfs m attempts retries ce slept req) = ReturnedNone →
     (retries < 0)%Z).
Proof.
  induction attempts as [|a rest IH]; intros retries ce slept req.
  - simpl. destruct (Z.ltb_spec retries 0); simpl; repeat split; try lia; try done.
  - simpl. destruct (Z.ltb_spec retries 0); [simpl; repeat split; (lia || done)|].
    destruct a as [response| |]; loop_cases; simpl;
      try (repeat split; (lia || done));
      match goal with
      | |- context [request_loop rfs m rest ?r ?c ?s ?q] =>
          destruct (IH r c s q) as ((Hlo & Hhi) & Hend & Hnone);
          (split; [lia|]); split;
          [intros Hlen; apply Hend; lia | intros Hn; apply Hnone in Hn; lia]
      end.
Qed.

Lemma request_loop_lower rfs m attempts retries ce slept req :
  (req ≤ requests (request_loop rfs m attempts retries ce slept req))%nat.
Proof. apply request_loop_budget. Qed.

Lemma request_loop_negative rfs m attempts retries ce slept req :
  (retries < 0)%Z →
  request_loop rfs m attempts retries ce slept req = mkRun ReturnedNone slept req.
Proof.
  intros Hneg. destruct attempts; simpl; by destruct (Z.ltb_spec retries 0); [|lia].
Qed.

Lemma request_loop_sleeps rfs m attempts : ∀ retries ce sl req,
  (retries ≤ m)%Z →
  ∃ sl', slept (request_loop rfs m attempts retries ce sl req) = sl ++ sl'
         ∧ Forall (λ s, 0 < s ≤ Z.max 60 (5 * (m + 1)))%Z sl'
         ∧ (length sl' ≤ requests (request_loop rfs m attempts retries ce sl req) - req)%nat.
Proof.
  induction attempts as [|a rest IH]; intros retries ce sl req Hm.
  - exists []. simpl. destruct (Z.ltb_spec retries 0); simpl; rewrite app_nil_r;
      (split; [done|]); (split; [done|]); lia.
  - simpl. destruct (Z.ltb_spec retries 0).
    { exists []. simpl; rewrite app_nil_r. split; [done|]. split; [done|]. lia. }
    destruct a as [response| |]; loop_cases; simpl;
      first
        [ exists []; rewrite app_nil_r; split; [done|]; split; [done|]; simpl; lia
        | eexists [_]; split; [done|]; split; [|simpl; lia];
          apply Forall_singleton; lia
        | match goal with
          | |- context [request_loop rfs m rest ?r ?c (sl ++ [?x]) ?q] =>
              destruct (IH r c (sl ++ [x]) q) as (sl' & -> & Hall & Hlen); [lia|];
              pose proof (request_loop_lower rfs m rest r c (sl ++ [x]) q);
              exists (x :: sl'); rewrite <- app_assoc; split; [done|];
              split; [|simpl; lia]; apply Forall_cons; split; [lia|done]
          | |- context [request_loop rfs m rest ?r ?c sl ?q] =>
              destruct (IH r c sl q) as (sl' & -> & Hall & Hlen); [lia|];
              exists sl'; split; [done|]; split; [done|]; lia
          end ].
Qed.

Lemma request_loop_returned rfs m attempts : ∀ retries ce slept req r,
  ended (request_loop rfs m attempts retries ce slept req) = Returned r →
  (∃ data, validate_api_response rfs r = inl data)
  ∧ (S req ≤ requests (request_loop rfs m attempts retries ce slept req))%nat
  ∧ attempts !! (requests (request_loop rfs m attempts retries ce slept req) - S req)%nat
    = Some (Got r).
Proof.
  induction attempts as [|a rest IH]; intros retries ce slept req r.
  - simpl. by destruct (Z.ltb_spec retries 0).
  - simpl. destruct (Z.ltb_spec retries 0); [done|].
    destruct a as [response| |]; loop_cases; simpl; try done;
      try (intros [= <-]; rewrite Nat.sub_diag; by eauto);
      intros Hr; apply IH in Hr as (Hv & Hreq & Hat); (split; [done|]); (split; [lia|]);
      match goal with
      | |- context [(?n - S req)%nat] =>
          replace (n - S req)%nat with (S (n - S (S req))) by lia
      end; done.
Qed.

Lemma request_loop_counted rfs m attempts : ∀ retries ce slept req,
  (0 ≤ ce < 3)%Z →
  (ce + Z.of_nat (counted_errors rfs
      (take (requests (request_loop rfs m attempts retries ce slept req) - req) attempts)) ≤ 3)%Z
  ∧ (ended (request_loop rfs m attempts retries ce slept req) = Raised BaseAPIError
     ↔ (ce + Z.of_nat (counted_errors rfs
          (take (requests (request_loop rfs m attempts retries ce slept req) - req) attempts))
        = 3)%Z).
Proof.
  induction attempts as [|a rest IH]; intros retries ce slept req Hce.
  - simpl. rewrite take_nil. unfold counted_errors. simpl.
    destruct (Z.ltb_spec retries 0); simpl; (split; [lia|]); split; (done || lia).
  - simpl. destruct (Z.ltb_spec retries 0).
    { simpl. rewrite Nat.sub_diag. unfold counted_errors. simpl.
      split; [lia|]. split; (done || lia). }
    destruct a as [response| |]; loop_cases; simpl;
      first
        [ replace (S req - req)%nat with 1%nat by lia; unfold counted_errors; simpl;
          rewrite ?take_0; simpl;
          repeat match goal with H : validate_api_response _ _ = _ |- _ => rewrite H end;
          simpl; split; [lia|]; split; (done || lia)
        | match goal with
          | |- context [request_loop rfs m rest ?r ?c ?s ?q] =>
              pose proof (request_loop_lower rfs m rest r c s q) as Hlo;
              replace (requests (request_loop rfs m rest r c s q) - req)%nat
                with (S (requests (request_loop rfs m rest r c s q) - S req)) by lia;
              destruct (IH r c s q) as (Hle & Hiff); [lia|];
              unfold counted_errors in *; simpl;
              repeat match goal with H : validate_api_response _ _ = _ |- _ => rewrite H end;
              simpl; rewrite ?length_cons; split; [lia|]; rewrite Hiff; lia
          end ].
Qed.

(** A call sends at most [max_retries + 1] requests and then ends: with
    that many answers at hand the loop never asks for another one. It
    sleeps at most once per request, and every sleep is of 1 to
    [max(60, 5 * (max_retries + 1))] seconds. *)
Theorem make_api_request_budget (raise_for_status : Response → bool)
    (max_retries : Z) (attempts : list attempt) :
  (requests (make_api_request raise_for_status max_retries attempts)
   ≤ Z.to_nat (max_retries + 1))%nat
  ∧ (Z.to_nat (max_retries + 1) ≤ length attempts →
     ended (make_api_request raise_for_status max_retries attempts) ≠ Starved)
  ∧ (length (slept (make_api_request raise_for_status max_retries attempts))
     ≤ requests (make_api_request raise_for_status max_retries attempts))%nat
  ∧ Forall (λ s, 0 < s ≤ Z.max 60 (5 * (max_retries + 1)))%Z
           (slept (make_api_request raise_for_status max_retries attempts)).
Proof.
  unfold make_api_request.
  destruct (request_loop_budget raise_for_status max_retries attempts max_retries 0 [] 0)
    as ((_ & Hhi) & Hend & _).
  destruct (request_loop_sleeps raise_for_status max_retries attempts max_retries 0 [] 0)
    as (sl & Hsl & Hall & Hlen); [lia|].
  split; [lia|]. split; [done|]. rewrite Hsl. simpl. split; [lia|done].
Qed.

(** The call returns [None] exactly when [max_retries] is negative, and
    then it sends no request and does not sleep. *)
Theorem make_api_request_none_iff_negative_retries (raise_for_status : Response → bool)
    (max_retries : Z) (attempts : list attempt) :
  (ended (make_api_request raise_for_status max_retries attempts) = ReturnedNone
   ↔ (max_retries < 0)%Z)
  ∧ ((max_retries < 0)%Z →
     make_api_request raise_for_status max_retries attempts = mkRun ReturnedNone [] 0).
Proof.
  unfold make_api_request. split; [split|].
  - apply request_loop_budget.
  - intros Hneg. by rewrite request_loop_negative.
  - apply request_loop_negative.
Qed.

(** A response that the call returns is the answer to the last request
    it sent, and [validate_api_response] accepted it: no HTTP error, a
    JSON content type and a JSON object as body. *)
Theorem returned_response_was_validated (raise_for_status : Response → bool)
    (max_retries : Z) (attempts : list attempt) (response : Response) :
  ended (make_api_request raise_for_status max_retries attempts) = Returned response →
  (1 ≤ requests (make_api_request raise_for_status max_retries attempts))%nat
  ∧ attempts !! (requests (make_api_request raise_for_status max_retries attempts) - 1)%nat
    = Some (Got response)
  ∧ raise_for_status response = false
  ∧ contains "application/json" (content_type response) = true
  ∧ ∃ data, json_body response = Some (PDict data).
Proof.
  unfold make_api_request. intros Hr.
  apply request_loop_returned in Hr as ((data & Hv) & Hreq & Hat).
  split; [done|]. split; [done|].
  unfold validate_api_response in Hv.
  destruct (raise_for_status response); [by destruct (_ =? _)%Z|].
  destruct (contains _ _); [|done].
  destruct (json_body response) as [[| | | | | |d]|]; try done.
  repeat split; by eauto.
Qed.

Lemma returned_response_was_validated_witness :
  (1 ≤ requests (make_api_request raises_from_400 3
                   [Got error_response; Broke; Got ok_response]))%nat
  ∧ [Got error_response; Broke; Got ok_response]
      !! (requests (make_api_request raises_from_400 3
                      [Got error_response; Broke; Got ok_response]) - 1)%nat
    = Some (Got ok_response)
  ∧ raises_from_400 ok_response = false
  ∧ contains "application/json" (content_type ok_response) = true
  ∧ ∃ data, json_body ok_response = Some (PDict data).
Proof. apply returned_response_was_validated. reflexivity. Defined.

(** The counter of "consecutive" errors is never reset. Of the answers
    to the requests of a call at most three are response errors or
    network errors, whatever lies between them, and the call raises
    [APIError] exactly when the third one arrives. *)
Theorem error_counter_is_never_reset (raise_for_status : Response → bool)
    (max_retries : Z) (attempts : list attempt) :
  (counted_errors raise_for_status
     (take (requests (make_api_request raise_for_status max_retries attempts)) attempts) ≤ 3)%nat
  ∧ (ended (make_api_request raise_for_status max_retries attempts) = Raised BaseAPIError
     ↔ counted_errors raise_for_status
         (take (requests (make_api_request raise_for_status max_retries attempts)) attempts)
       = 3%nat).
Proof.
  unfold make_api_request.
  destruct (request_loop_counted raise_for_status max_retries attempts max_retries 0 [] 0)
    as (Hle & Hiff); [lia|].
  rewrite Nat.sub_0_r in Hle, Hiff. split; [lia|]. rewrite Hiff. lia.
Qed.

(** Two network errors, a rate limit, an unforeseen exception and a
    third network error: the call gives up although no three errors
    came in a row and four retries were left. *)
Example errors_need_not_be_consecutive :
  make_api_request raises_from_400 8
    [NetworkDown; NetworkDown; Got (mkResponse 429 "" None None); Broke; NetworkDown;
     Got ok_response]
  = mkRun (Raised BaseAPIError) [5; 10; 60]%Z 5.
Proof. reflexivity. Qed.

(** ** The validators of the sources *)

Lemma year_of_date_or v : year_of_date (py_or (py_or PNone v) PNone) = year_of_date v.
Proof.
  unfold py_or. simpl. destruct (truthy v) eqn:Hv; [done|].
  destruct v; try done. simpl in *. by rewrite Hv.
Qed.

Lemma strip_if_str_or v : strip_if_str (py_or (py_or PNone v) PNone) = strip_if_str v.
Proof.
  unfold py_or. simpl. destruct (truthy v) eqn:Hv; [done|].
  destruct v; try done. simpl in *. by rewrite Hv.
Qed.

Lemma count_of_or v : count_of (py_or (py_or v PNone) PNone) = count_of v.
Proof.
  unfold py_or. destruct (truthy v) eqn:Hv; rewrite ?Hv; [done|]. simpl.
  destruct v as [| b | z | [q|neg|] | s | l | d]; simpl in *; try done.
  - by destruct b.
  - apply negb_false_iff, Z.eqb_eq in Hv. by subst.
  - apply negb_false_iff in Hv. unfold Qeq_bool in Hv. apply Z.eqb_eq in Hv.
    simpl in Hv. rewrite Z.mul_1_r in Hv. by rewrite Hv.
  - apply negb_false_iff, bool_decide_eq_true in Hv. by subst.
Qed.

Lemma count_of_result v :
  if is_infinite v then count_of v = Raise OverflowError else ∃ c, count_of v = Ok c.
Proof.
  destruct v as [| b | z | [q|neg|] | s | l | d]; simpl; try (by eexists).
  unfold int_of_str. destruct (Py.int s); simpl; by eexists.
Qed.

Lemma str_or_none_or v :
  str_or_none (py_or (py_or PNone v) PNone)
  = (if bool_decide (str_or_none v = Some "") then None else str_or_none v).
Proof.
  unfold py_or. simpl.
  destruct v as [| b | z | q | s | l | d]; simpl;
    [done | by destruct b | by destruct (z =? 0)%Z | by (destruct q as [q|neg|]; simpl; [destruct (Qeq_bool q 0)| |]) |
    | by destruct (bool_decide (l = [])) | by destruct (bool_decide (d = []))].
  destruct (bool_decide (s = "")) eqn:Hs; simpl.
  - apply bool_decide_eq_true in Hs. subst. done.
  - apply bool_decide_eq_false in Hs. rewrite bool_decide_eq_false_2; [done|]. by intros [= ->].
Qed.

Lemma validated_cited_count_of d : validated_cited d = count_of (raw_cited d).
Proof. unfold validated_cited, count_of. by destruct (raw_cited d). Qed.

(** The validator of Scopus and [validate_paper_entry] agree on the
    entries of Scopus. When the entry has none of the keys that only
    [validate_paper_entry] reads, both raise [OverflowError] on an
    infinite count of citations, and otherwise both give the same
    paper, but for one field: an empty [dc:creator] string stays the
    empty string with Scopus and becomes [None] with
    [validate_paper_entry]. *)
Theorem generic_validator_agrees_with_scopus (d : list (string * pyval)) :
  Forall (λ k, dict_get d k = PNone) generic_keys →
  if is_infinite (dict_get d "citedby-count")
  then validate_scopus_paper_entry (PDict d) = Raise OverflowError
       ∧ validate_paper_entry (PDict d) None = Raise OverflowError
  else
    ∃ p, validate_scopus_paper_entry (PDict d) = Ok (Some p)
         ∧ validate_paper_entry (PDict d) None
           = Ok (Some {| doi := doi p; title := title p;
                         authors := (if bool_decide (authors p = Some "") then None
                                     else authors p);
                         year := year p; publicationName := publicationName p;
                         url := url p; citedby_count := citedby_count p |}).
Proof.
  intros Hkeys.
  assert (∀ k, k ∈ generic_keys → dict_get d k = PNone) as Hk.
  { by apply Forall_forall. }
  assert (∀ k, In k generic_keys → dict_get d k = PNone) as Habsent.
  { intros k Hin. by apply Hk, list_elem_of_In. }
  clear Hkeys Hk. simpl in Habsent.
  unfold validate_scopus_paper_entry, validate_paper_entry, build_paper.
  assert (validated_year d = year_of_date (dict_get d "prism:coverDisplayDate")) as Hy.
  { unfold validated_year, raw_year.
    rewrite (Habsent "year"), (Habsent "publicationYear") by tauto.
    exact (year_of_date_or (dict_get d "prism:coverDisplayDate")). }
  assert (validated_cited d = count_of (dict_get d "citedby-count")) as Hc.
  { rewrite validated_cited_count_of. unfold raw_cited.
    rewrite (Habsent "citationCount"), (Habsent "citations") by tauto.
    exact (count_of_or (dict_get d "citedby-count")). }
  destruct (validated_year_spec d) as (y & Hy' & _).
  pose proof (count_of_result (dict_get d "citedby-count")) as Hcount.
  rewrite Hc, <- Hy, Hy'.
  destruct (is_infinite (dict_get d "citedby-count")).
  { by rewrite Hcount. }
  destruct Hcount as (c & ->). simpl.
  eexists. split; [done|]. simpl. do 2 f_equal. f_equal.
  - unfold validated_doi, raw_doi. by rewrite (Habsent "doi") by tauto.
  - unfold validated_title, raw_title. by rewrite (Habsent "title") by tauto.
  - unfold validated_authors, raw_authors.
    rewrite (Habsent "authors"), (Habsent "author") by tauto.
    exact (str_or_none_or (dict_get d "dc:creator")).
  - unfold validated_publicationName.
    rewrite (Habsent "publicationName"), (Habsent "journal") by tauto.
    exact (strip_if_str_or (dict_get d "prism:publicationName")).
  - unfold validated_url. by rewrite (Habsent "url") by tauto.
Qed.

Lemma generic_validator_agrees_with_scopus_witness :
  ∃ p, validate_scopus_paper_entry
         (PDict [("dc:title", PStr " A Study of X "); ("dc:creator", PStr "");
                 ("prism:coverDisplayDate", PStr "2021-05-01");
                 ("prism:doi", PStr "10.1/ABC"); ("citedby-count", PStr "7")])
       = Ok (Some p)
       ∧ validate_paper_entry
           (PDict [("dc:title", PStr " A Study of X "); ("dc:creator", PStr "");
                   ("prism:coverDisplayDate", PStr "2021-05-01");
                   ("prism:doi", PStr "10.1/ABC"); ("citedby-count", PStr "7")]) None
         = Ok (Some {| doi := doi p; title := title p;
                       authors := (if bool_decide (authors p = Some "") then None
                                   else authors p);
                       year := year p; publicationName := publicationName p;
                       url := url p; citedby_count := citedby_count p |}).
Proof.
  apply (generic_validator_agrees_with_scopus
           [("dc:title", PStr " A Study of X "); ("dc:creator", PStr "");
            ("prism:coverDisplayDate", PStr "2021-05-01");
            ("prism:doi", PStr "10.1/ABC"); ("citedby-count", PStr "7")]).
  repeat constructor.
Defined.

Lemma lstrip_app_kept cls (s : string) c r :
  cls c = false → Py.lstrip cls (s +:+ String c r) = Py.lstrip cls s +:+ String c r.
Proof.
  intros Hc. induction s as [|x s IH].
  - rewrite !app_nil. simpl. by rewrite Hc.
  - rewrite app_cons. simpl. destruct (cls x); [done|]. by rewrite app_cons.
Qed.

Lemma rstrip_cons_kept cls c r : cls c = false → Py.rstrip cls (String c r) = String c (Py.rstrip cls r).
Proof. intros Hc. simpl. destruct (Py.rstrip cls r); [by rewrite Hc|done]. Qed.

Lemma lstrip_idemp cls s : Py.lstrip cls (Py.lstrip cls s) = Py.lstrip cls s.
Proof.
  induction s as [|c s IH]; [done|]. simpl.
  destruct (cls c) eqn:Hc; [done|]. simpl. by rewrite Hc.
Qed.

Lemma lstrip_rstrip cls s : Py.lstrip cls (Py.rstrip cls (Py.lstrip cls s)) = Py.rstrip cls (Py.lstrip cls s).
Proof.
  induction s as [|c s IH]; [done|]. simpl.
  destruct (cls c) eqn:Hc; [done|].
  rewrite rstrip_cons_kept by done. simpl. by rewrite Hc.
Qed.

Lemma rstrip_idemp cls s : Py.rstrip cls (Py.rstrip cls s) = Py.rstrip cls s.
Proof.
  induction s as [|c s IH]; [done|]. simpl.
  destruct (Py.rstrip cls s) as [|c' r] eqn:Hr.
  - destruct (cls c) eqn:Hc; [done|]. simpl. by rewrite Hc.
  - change (Py.rstrip cls (String c (String c' r))) with
      (match Py.rstrip cls (String c' r) with
       | EmptyString => if cls c then EmptyString else String c EmptyString
       | r' => String c r'
       end).
    by rewrite IH.
Qed.

Lemma strip_idemp s : Py.strip (Py.strip s) = Py.strip s.
Proof. unfold Py.strip. by rewrite lstrip_rstrip, rstrip_idemp. Qed.

Lemma all_chars_lstrip cls cls' s :
  all_chars cls s = true → all_chars cls (Py.lstrip cls' s) = true.
Proof.
  induction s as [|c s IH]; [done|]. simpl. intros [Hc Hs]%andb_true_iff.
  destruct (cls' c); [by apply IH|]. simpl. by rewrite Hc, Hs.
Qed.

Lemma all_chars_rstrip cls cls' s :
  all_chars cls s = true → all_chars cls (Py.rstrip cls' s) = true.
Proof.
  induction s as [|c s IH]; [done|]. simpl. intros [Hc Hs]%andb_true_iff.
  specialize (IH Hs).
  destruct (Py.rstrip cls' s) as [|c' r].
  - destruct (cls' c); [done|]. simpl. by rewrite Hc.
  - simpl in *. by rewrite Hc, IH.
Qed.

Lemma split_on_none sep s :
  all_chars (λ c, negb (sep c)) s = true → Py.split_on sep s = [s].
Proof.
  induction s as [|c s IH]; [done|]. simpl. intros [Hc Hs]%andb_true_iff.
  apply negb_true_iff in Hc. rewrite Hc, IH; done.
Qed.

Lemma split_on_first sep (s : string) c r :
  all_chars (λ c, negb (sep c)) s = true → sep c = true →
  Py.split_on sep (s +:+ String c r) = s :: Py.split_on sep r.
Proof.
  intros Hs Hc. induction s as [|x s IH].
  - rewrite app_nil. simpl. by rewrite Hc.
  - rewrite app_cons. simpl in *. apply andb_true_iff in Hs as [Hx Hs].
    apply negb_true_iff in Hx. rewrite Hx, IH; done.
Qed.

Lemma separator_is_no_space c : is_comma_or_semicolon c = true → Py.is_space c = false.
Proof.
  unfold is_comma_or_semicolon. intros [Hc|Hc]%orb_true_iff;
    apply bool_decide_eq_true in Hc; by subst.
Qed.

Lemma last_name_unseparated (first : string) :
  all_chars (λ c, negb (is_comma_or_semicolon c)) first = true →
  last_name (Some first)
  = (if bool_decide (Py.strip first = "") then "unknown"
     else last_of (Py.split_ws (Py.strip first))).
Proof.
  intros Hfirst. unfold last_name, nonempty.
  destruct (bool_decide (first = "")) eqn:Hempty; simpl.
  { apply bool_decide_eq_true in Hempty. by subst. }
  rewrite split_on_none.
  2:{ unfold Py.strip. by apply all_chars_rstrip, all_chars_lstrip. }
  unfold first_of. simpl. rewrite strip_idemp.
  by destruct (bool_decide (Py.strip first = "")).
Qed.

Lemma last_name_separated (first rest : string) sep :
  all_chars (λ c, negb (is_comma_or_semicolon c)) first = true →
  is_comma_or_semicolon sep = true →
  last_name (Some (first +:+ String sep rest))
  = (if bool_decide (Py.strip first = "") then "unknown"
     else last_of (Py.split_ws (Py.strip first))).
Proof.
  intros Hfirst Hsep. pose proof (separator_is_no_space _ Hsep) as Hspace.
  unfold last_name, nonempty.
  rewrite bool_decide_eq_false_2 by (by destruct first). simpl.
  assert (Py.strip (first +:+ String sep rest)
          = Py.lstrip Py.is_space first +:+ String sep (Py.rstrip Py.is_space rest)) as ->.
  { unfold Py.strip. rewrite (lstrip_app_kept Py.is_space first sep rest Hspace).
    rewrite (rstrip_app Py.is_space (Py.lstrip Py.is_space first) (String sep rest)).
    - by rewrite (rstrip_cons_kept Py.is_space sep rest Hspace).
    - by rewrite (rstrip_cons_kept Py.is_space sep rest Hspace). }
  rewrite split_on_first; [|by apply all_chars_lstrip|done].
  unfold first_of. simpl.
  replace (Py.strip (Py.lstrip Py.is_space first)) with (Py.strip first).
  2:{ unfold Py.strip. by rewrite lstrip_idemp. }
  by destruct (bool_decide (Py.strip first = "")).
Qed.

Lemma year_of_string_range s y :
  year_of_string s = Ok (Some y) → (1900 ≤ y ≤ 2030)%Z.
Proof.
  unfold year_of_string.
  destruct (index0 _) as [seg|e]; simpl; [|done].
  destruct (int_of_str seg) as [z|e]; simpl; [|done].
  destruct ((1900 <=? z)%Z && (z <=? 2030)%Z) eqn:Hr; [|done].
  intros [= <-]. apply andb_true_iff in Hr as [?%Z.leb_le ?%Z.leb_le]. lia.
Qed.

Lemma year_of_string_raises s e :
  year_of_string s = Raise e → e = ValueError ∨ e = IndexError.
Proof.
  unfold year_of_string, index0, int_of_str.
  destruct (Py.split_on is_dash s) as [|seg ?]; simpl; [intros [= <-]; by right|].
  destruct (Py.int seg) as [z|]; simpl; [|intros [= <-]; by left].
  by destruct ((1900 <=? z)%Z && (z <=? 2030)%Z).
Qed.

Lemma year_of_date_ok v :
  ∃ y, year_of_date v = Ok y ∧ ∀ z, y = Some z → (1900 ≤ z ≤ 2030)%Z.
Proof.
  destruct v as [| b | z | q | s | l | d]; simpl; try (by eexists).
  destruct (negb (bool_decide (s = ""))); [|by eexists].
  destruct (year_of_string s) as [[y|]|e] eqn:Hy; simpl.
  - exists (Some y). split; [done|]. intros z [= <-]. by apply (year_of_string_range s).
  - by exists None.
  - apply year_of_string_raises in Hy as [-> | ->]; by exists None.
Qed.

Lemma year_of_number_ok v :
  ∃ y, year_of_number v = Ok y ∧ ∀ z, y = Some z → (1900 ≤ z ≤ 2030)%Z.
Proof.
  destruct v as [| b | z | q | s | l | d]; simpl; try (by eexists).
  destruct (negb (bool_decide (s = ""))); [|by eexists].
  unfold int_of_str. destruct (Py.int s) as [y|]; simpl; [|by exists None].
  destruct ((1900 <=? y)%Z && (y <=? 2030)%Z) eqn:Hr; simpl; [|by exists None].
  exists (Some y). split; [done|]. intros z [= <-].
  apply andb_true_iff in Hr as [?%Z.leb_le ?%Z.leb_le]. lia.
Qed.

Lemma strip_if_str_trimmed v s : strip_if_str v = Some s → Py.strip s = s.
Proof.
  destruct v as [| | | | s' | |]; simpl; try done.
  destruct (negb _); [|done]. intros [= <-]. apply strip_idemp.
Qed.

Lemma title_of_trimmed v : Py.strip (title_of v) = title_of v.
Proof.
  destruct v as [| | | | s | |]; simpl; try done.
  destruct (negb _); [|done]. apply strip_idemp.
Qed.

Lemma validate_scopus_result (entry : pyval) :
  match entry with
  | PDict d =>
      if is_infinite (dict_get d "citedby-count")
      then validate_scopus_paper_entry entry = Raise OverflowError
      else ∃ p, validate_scopus_paper_entry entry = Ok (Some p)
                ∧ (∀ y, year p = Some y → (1900 ≤ y ≤ 2030)%Z)
                ∧ Py.strip (title p) = title p
                ∧ (∀ s, publicationName p = Some s → Py.strip s = s)
                ∧ (∀ s, url p = Some s → Py.strip s = s)
  | _ => validate_scopus_paper_entry entry = Ok None
  end.
Proof.
  destruct entry as [| | | | | |d]; try done.
  unfold validate_scopus_paper_entry.
  destruct (year_of_date_ok (dict_get d "prism:coverDisplayDate")) as (y & -> & Hy).
  pose proof (count_of_result (dict_get d "citedby-count")) as Hc.
  destruct (is_infinite (dict_get d "citedby-count")).
  { by rewrite Hc. }
  destruct Hc as (c & ->). simpl. eexists. split; [done|]. simpl.
  split; [done|]. split; [apply title_of_trimmed|].
  split; intros s; apply strip_if_str_trimmed.
Qed.

(** [validate_scopus_paper_entry] raises in one case only: the count of
    citations of the entry is an infinite float, and the exception is
    [OverflowError]. It returns the empty result exactly for the entries
    that are no dictionary. A paper that it returns has a year, if any,
    in 1900..2030 and a trimmed title, publication name and URL. *)
Theorem scopus_validator_raises_only_on_infinite_count (entry : pyval) :
  (validate_scopus_paper_entry entry = Raise OverflowError
   ↔ ∃ d, entry = PDict d ∧ is_infinite (dict_get d "citedby-count") = true)
  ∧ (∀ e, validate_scopus_paper_entry entry = Raise e → e = OverflowError)
  ∧ (validate_scopus_paper_entry entry = Ok None ↔ ∀ d, entry ≠ PDict d)
  ∧ ((∃ p, validate_scopus_paper_entry entry = Ok (Some p)) ↔ collected entry = true)
  ∧ (∀ p, validate_scopus_paper_entry entry = Ok (Some p) →
          (∀ y, year p = Some y → (1900 ≤ y ≤ 2030)%Z)
          ∧ Py.strip (title p) = title p
          ∧ (∀ s, publicationName p = Some s → Py.strip s = s)
          ∧ (∀ s, url p = Some s → Py.strip s = s)).
Proof.
  pose proof (validate_scopus_result entry) as Hr.
  destruct entry as [| | | | | |d];
    try (rewrite Hr; split; [split; [done | by intros (? & ? & _)]|];
         split; [done|]; split; [done|]; split; [split; [by intros [? ?]|done]|done]).
  unfold collected.
  destruct (is_infinite (dict_get d "citedby-count")) eqn:Hinf.
  - rewrite Hr. split; [split; [by exists d|done]|].
    split; [by intros e [= <-]|]. split; [split; [done|intros Hd; by destruct (Hd d)]|].
    split; [split; [by intros [? ?]|done]|done].
  - destruct Hr as (p & Hp & Hprops). rewrite Hp.
    split; [split; [done|intros (d' & [= <-] & Hd'); congruence]|].
    split; [done|]. split; [split; [done|intros Hd; by destruct (Hd d)]|].
    split; [split; [done|by exists p]|]. by intros p' [= <-].
Qed.

Lemma scopus_entries_cons entry entries :
  scopus_entries (entry :: entries)
  = match validate_scopus_paper_entry entry with
    | Ok (Some paper) => paper :: scopus_entries entries
    | _ => scopus_entries entries
    end.
Proof.
  unfold scopus_entries. simpl.
  by destruct (validate_scopus_paper_entry entry) as [[paper|]|e].
Qed.

(** The loop over the entries of a page in [get_scopus] keeps, in their
    order, the papers of the entries that are dictionaries with a count
    of citations that is not infinite, one paper for each; the other
    entries are passed over without an exception leaving the loop. *)
Theorem scopus_entries_collected (entries : list pyval) :
  Forall2 (λ entry paper, validate_scopus_paper_entry entry = Ok (Some paper))
          (List.filter collected entries) (scopus_entries entries)
  ∧ length (scopus_entries entries) ≤ length entries
  ∧ (∀ entry, entry ∈ entries → collected entry = false →
              validate_scopus_paper_entry entry = Ok None
              ∨ validate_scopus_paper_entry entry = Raise OverflowError).
Proof.
  split; [|split].
  - induction entries as [|entry entries IH]; [constructor|].
    rewrite scopus_entries_cons.
    change (List.filter collected (entry :: entries))
      with (if collected entry then entry :: List.filter collected entries
            else List.filter collected entries).
    pose proof (validate_scopus_result entry) as Hr.
    destruct entry as [| | | | | |d]; try (by rewrite Hr).
    unfold collected at 1.
    destruct (is_infinite (dict_get d "citedby-count")); cbn [negb]; [by rewrite Hr|].
    destruct Hr as (p & Hp & _). rewrite Hp. by constructor.
  - induction entries as [|entry entries IH]; [done|].
    rewrite scopus_entries_cons.
    destruct (validate_scopus_paper_entry entry) as [[paper|]|e]; cbn [length]; lia.
  - intros entry _ Hno. pose proof (validate_scopus_result entry) as Hr.
    destruct entry as [| | | | | |d]; try (by left).
    unfold collected in Hno. apply negb_false_iff in Hno. rewrite Hno in Hr. by right.
Qed.

Lemma strings_of_none l :
  strings_of l = None ↔ ∃ v, v ∈ l ∧ ∀ s, v ≠ PStr s.
Proof.
  induction l as [|v l IH]; simpl.
  - split; [done|]. by intros (v & ?%elem_of_nil & _).
  - destruct v as [| b | z | q | s | l' | d];
      try (split; [intros _; eexists; split; [by left|done] | done]).
    destruct (strings_of l) as [ss|]; simpl.
    + split; [done|]. intros (v & [->|Hv]%elem_of_cons & Hno).
      * by destruct (Hno s).
      * assert (Some ss = None) as Hss; [|done]. apply IH. by exists v.
    + split; [|done]. intros _. destruct (proj1 IH eq_refl) as (v & Hv & Hno).
      exists v. split; [by right|done].
Qed.

Lemma strings_of_strs ss : strings_of (PStr <$> ss) = Some ss.
Proof.
  induction ss as [|s ss IH]; [done|].
  change (strings_of (PStr <$> s :: ss)) with ((λ ss', s :: ss') <$> strings_of (PStr <$> ss)).
  by rewrite IH.
Qed.

Lemma elem_of_author_names key l v :
  v ∈ author_names key l
  ↔ ∃ a, PDict a ∈ l ∧ dict_get_or a key (PStr "") = v ∧ truthy v = true.
Proof.
  unfold author_names. rewrite list_elem_of_omap. split.
  - intros (author & Hin & Hv). destruct author as [| | | | | |a]; try done.
    simpl in Hv. destruct (truthy _) eqn:Ht; [|done]. injection Hv as <-.
    by exists a.
  - intros (a & Hin & <- & Ht). exists (PDict a). split; [done|]. simpl. by rewrite Ht.
Qed.

(** Unlike the other validators, [validate_dblp_paper_entry] can raise.
    It raises [AttributeError] exactly when the value under [authors] is
    no dictionary, and [TypeError] exactly when some author of the list
    has a truthy [text] that is no string; it raises nothing else. When
    [author] is no list (DBLP sends a single author as a dictionary) the
    paper has no authors. *)
Theorem dblp_entry_raises (d : list (string * pyval)) :
  (validate_dblp_paper_entry (PDict d) = inr AttributeError
   ↔ ∀ a, dict_get_or d "authors" (PDict []) ≠ PDict a)
  ∧ (validate_dblp_paper_entry (PDict d) = inr (Builtin TypeError)
     ↔ ∃ a l ad v, dict_get_or d "authors" (PDict []) = PDict a
                   ∧ dict_get_or a "author" (PList []) = PList l
                   ∧ PDict ad ∈ l
                   ∧ dict_get_or ad "text" (PStr "") = v
                   ∧ truthy v = true ∧ ∀ s, v ≠ PStr s)
  ∧ (∀ e, validate_dblp_paper_entry (PDict d) = inr e
          → e = AttributeError ∨ e = Builtin TypeError)
  ∧ (∀ a, dict_get_or d "authors" (PDict []) = PDict a →
          (∀ l, dict_get_or a "author" (PList []) ≠ PList l) →
          ∃ p, validate_dblp_paper_entry (PDict d) = inl (Some p) ∧ authors p = None).
Proof.
  unfold validate_dblp_paper_entry.
  destruct (year_of_number_ok (dict_get d "year")) as (y & -> & _).
  unfold dblp_authors.
  destruct (dict_get_or d "authors" (PDict [])) as [| b | z | q | s | l' | a] eqn:Hauthors;
    try (split; [split; [done | intros _]; done|];
         split; [split; [done | by intros (? & ? & ? & ? & ? & _)]|];
         split; [intros e [= <-]; by left | done]).
  split; [split; [|intros Ha; by destruct (Ha a)]|].
  { destruct (dict_get_or a "author" (PList [])) as [| | | | |l|]; try done.
    destruct (truthy (PList l)); [|done]. unfold join_names.
    destruct (author_names "text" l); [done|]. by destruct (strings_of _). }
  destruct (dict_get_or a "author" (PList [])) as [| b | z | q | s | l | a'] eqn:Hauthor;
    try (split; [split; [done | intros (? & ? & ? & ? & [= <-] & ? & _); congruence]|];
         split; [done|]; intros ? [= <-] _; by eexists).
  split; [|split].
  - destruct (truthy (PList l)) eqn:Hl.
    + unfold join_names.
      destruct (author_names "text" l) as [|n ns] eqn:Hnames.
      * split; [done|]. intros (? & l0 & ad & v & [= <-] & Hl0 & Hin & Hv & Ht & Hno).
        rewrite Hauthor in Hl0. injection Hl0 as <-.
        assert (v ∈ author_names "text" l) as Hel by (apply elem_of_author_names; eauto).
        rewrite Hnames in Hel. by apply elem_of_nil in Hel.
      * destruct (strings_of (n :: ns)) as [ss|] eqn:Hss.
        -- split; [done|]. intros (? & l0 & ad & v & [= <-] & Hl0 & Hin & Hv & Ht & Hno).
        rewrite Hauthor in Hl0. injection Hl0 as <-.
           assert (strings_of (n :: ns) = None) as Hnone; [|congruence].
           apply strings_of_none. exists v. split; [|done].
           rewrite <- Hnames. apply elem_of_author_names. eauto.
        -- split; [intros _|done].
           apply strings_of_none in Hss as (v & Hv & Hno).
           rewrite <- Hnames in Hv. apply elem_of_author_names in Hv as (ad & Hin & Hget & Ht).
           by exists a, l, ad, v.
    + split; [done|]. intros (? & l0 & ad & v & [= <-] & Hl0 & Hin & _).
      rewrite Hauthor in Hl0. injection Hl0 as <-.
      simpl in Hl. apply negb_false_iff, bool_decide_eq_true in Hl. subst.
      by apply elem_of_nil in Hin.
  - intros e. destruct (truthy (PList l)); [|done]. unfold join_names.
    destruct (author_names "text" l); [done|].
    destruct (strings_of _); [done|]. intros [= <-]. by right.
  - intros ? [= <-] Hno. by destruct (Hno l).
Qed.

(** The name in a citation key is read from the text before the first
    comma or semicolon of the authors: it is the last word of that text,
    or [unknown] when the text is blank, and the rest of the authors
    does not change the key. *)
Theorem key_name_is_read_before_first_separator (title : option string)
    (first rest : string) (sep : ascii) (year : option Z) (doi : option string)
    (existing_keys : option (gset string)) :
  all_chars (λ c, negb (is_comma_or_semicolon c)) first = true →
  is_comma_or_semicolon sep = true →
  last_name (Some (first +:+ String sep rest))
  = (if bool_decide (Py.strip first = "") then "unknown"
     else last_of (Py.split_ws (Py.strip first)))
  ∧ clean_bibtex_key title (Some (first +:+ String sep rest)) year doi existing_keys
    = clean_bibtex_key title (Some first) year doi existing_keys.
Proof.
  intros Hfirst Hsep. split; [by apply last_name_separated|].
  unfold clean_bibtex_key, base_key.
  by rewrite last_name_separated, last_name_unseparated.
Qed.

Lemma key_name_is_read_before_first_separator_witness :
  last_name (Some ("Ada Lovelace" +:+ String ";" " Charles Babbage"))
  = (if bool_decide (Py.strip "Ada Lovelace" = "") then "unknown"
     else last_of (Py.split_ws (Py.strip "Ada Lovelace")))
  ∧ clean_bibtex_key (Some "Notes") (Some ("Ada Lovelace" +:+ String ";" " Charles Babbage"))
      (Some 1843%Z) None None
    = clean_bibtex_key (Some "Notes") (Some "Ada Lovelace") (Some 1843%Z) None None.
Proof. apply key_name_is_read_before_first_separator; reflexivity. Defined.

Lemma author_names_texts key ads names :
  Forall2 (λ ad n, dict_get_or ad key (PStr "") = PStr n ∧ n ≠ "") ads names →
  author_names key (PDict <$> ads) = PStr <$> names.
Proof.
  induction 1 as [|ad n ads names [Hget Hn] _ IH]; [done|].
  unfold author_names in *. simpl. rewrite Hget. simpl.
  rewrite bool_decide_eq_false_2 by done. simpl. f_equal. exact IH.
Qed.

Lemma join_cons sep first second others :
  join sep (first :: second :: others) = first +:+ sep +:+ join sep (second :: others).
Proof. done. Qed.

(** When the authors of a DBLP entry are a list of dictionaries with a
    name under [text], the paper has the names joined by ["; "], and the
    name in its citation key is that of the first author. *)
Theorem dblp_authors_are_joined (d a : list (string * pyval))
    (ads : list (list (string * pyval))) (first : string) (others : list string) :
  dict_get_or d "authors" (PDict []) = PDict a →
  dict_get_or a "author" (PList []) = PList (PDict <$> ads) →
  Forall2 (λ ad n, dict_get_or ad "text" (PStr "") = PStr n ∧ n ≠ "") ads (first :: others) →
  ∃ p, validate_dblp_paper_entry (PDict d) = inl (Some p)
       ∧ authors p = Some (join "; " (first :: others))
       ∧ (all_chars (λ c, negb (is_comma_or_semicolon c)) first = true →
          last_name (authors p) = last_name (Some first)).
Proof.
  intros Hauthors Hauthor Hnames.
  unfold validate_dblp_paper_entry, dblp_authors.
  destruct (year_of_number_ok (dict_get d "year")) as (y & -> & _).
  rewrite Hauthors, Hauthor.
  rewrite (author_names_texts _ _ _ Hnames).
  assert (truthy (PList (PDict <$> ads)) = true) as ->.
  { inversion Hnames; subst. done. }
  unfold join_names. rewrite fmap_cons.
  change (strings_of (PStr first :: (PStr <$> others)))
    with ((λ ss, first :: ss) <$> strings_of (PStr <$> others)).
  rewrite strings_of_strs. simpl fmap.
  eexists. split; [done|]. cbn [authors]. split; [done|].
  intros Hfirst. destruct others as [|second others]; [done|].
  rewrite join_cons.
  change ("; " +:+ join "; " (second :: others))
    with (String ";" (" " +:+ join "; " (second :: others))).
  by rewrite last_name_separated, last_name_unseparated.
Qed.

Lemma dblp_authors_are_joined_witness :
  ∃ p, validate_dblp_paper_entry
         (PDict [("title", PStr "On Graphs");
                 ("authors",
                  PDict [("author",
                          PList [PDict [("@pid", PStr "1"); ("text", PStr "Ada Lovelace")];
                                 PDict [("text", PStr "Charles Babbage")]])])])
       = inl (Some p)
       ∧ authors p = Some (join "; " ["Ada Lovelace"; "Charles Babbage"])
       ∧ (all_chars (λ c, negb (is_comma_or_semicolon c)) "Ada Lovelace" = true →
          last_name (authors p) = last_name (Some "Ada Lovelace")).
Proof.
  apply (dblp_authors_are_joined _
           [("author", PList [PDict [("@pid", PStr "1"); ("text", PStr "Ada Lovelace")];
                              PDict [("text", PStr "Charles Babbage")]])]
           [[("@pid", PStr "1"); ("text", PStr "Ada Lovelace")];
            [("text", PStr "Charles Babbage")]]).
  - reflexivity.
  - reflexivity.
  - repeat constructor; done.
Defined.

Lemma validate_dblp_venue entry p :
  validate_dblp_paper_entry entry = inl (Some p) →
  ∃ info, entry = PDict info ∧ publicationName p = strip_if_str (dict_get info "venue").
Proof.
  destruct entry as [| | | | | |info]; try done. simpl.
  destruct (dblp_authors info); [|done].
  destruct (year_of_number _); [|done]. intros [= <-]. by exists info.
Qed.

Lemma dblp_hit_venue venue hit p :
  dblp_hit venue hit = Some p →
  ∃ v, publicationName p = Some v
       ∧ contains (Py.lower venue) (Py.lower v) = true
       ∧ Py.strip v = v.
Proof.
  unfold dblp_hit. destruct hit as [| | | | | |h]; try done.
  destruct (validate_dblp_paper_entry _) as [[paper|]|] eqn:Hvalid; try done.
  destruct (publicationName paper) as [v|] eqn:Hvenue; [|done].
  destruct (contains _ _) eqn:Hin; [|done]. intros [= <-].
  exists v. split; [done|]. split; [done|].
  apply validate_dblp_venue in Hvalid as (info & _ & Hpub).
  rewrite Hvenue in Hpub. by apply (strip_if_str_trimmed (dict_get info "venue")).
Qed.

(** The papers that the loop over the hits of DBLP collects all have a
    venue, trimmed, that contains the venue asked for, whatever the case
    of the letters; there are no more of them than hits; and a paper
    without a venue is never collected. *)
Theorem dblp_hits_have_the_venue (venue : string) (hits : list pyval) :
  Forall (λ p, ∃ v, publicationName p = Some v
                    ∧ contains (Py.lower venue) (Py.lower v) = true
                    ∧ Py.strip v = v)
         (dblp_hits venue hits)
  ∧ length (dblp_hits venue hits) ≤ length hits
  ∧ (∀ info p, dict_get info "venue" = PNone →
               validate_dblp_paper_entry (PDict info) = inl (Some p) →
               p ∉ dblp_hits venue hits).
Proof.
  assert (Forall (λ p, ∃ v, publicationName p = Some v
                            ∧ contains (Py.lower venue) (Py.lower v) = true
                            ∧ Py.strip v = v)
                 (dblp_hits venue hits)) as Hall.
  { apply Forall_forall. intros p (hit & _ & Hhit)%list_elem_of_omap.
    by apply (dblp_hit_venue venue hit). }
  split; [done|]. split.
  - clear Hall. unfold dblp_hits. induction hits as [|hit hits IH]; simpl; [done|].
    destruct (dblp_hit venue hit); simpl;
      [apply le_n_S | apply Nat.le_le_succ_r]; exact IH.
  - intros info p Hvenue Hvalid Hin.
    apply (proj1 (Forall_forall _ _) Hall) in Hin as (v & Hv & _).
    apply validate_dblp_venue in Hvalid as (info' & [= <-] & Hpub).
    rewrite Hvenue in Hpub. simpl in Hpub. congruence.
Qed.

(** ** The end of the driver of DBLP *)

Lemma length_issued_entries papers (reg : gset string) :
  length (issued_entries papers reg) = length papers.
Proof.
  revert reg. induction papers as [|p l IH]; intros reg; [done|]. simpl. by rewrite IH.
Qed.

Lemma drop_duplicates_from_length seen df :
  length (drop_duplicates_from seen df) ≤ length df.
Proof. apply sublist_length, drop_duplicates_from_sublist. Qed.

Lemma drop_duplicates_from_full seen df :
  length (drop_duplicates_from seen df) = length df → drop_duplicates_from seen df = df.
Proof.
  revert seen. induction df as [|p df IH]; intros seen; simpl; [done|].
  case_bool_decide as Hp.
  - pose proof (drop_duplicates_from_length seen df). lia.
  - simpl. intros [= Hlen]. f_equal. by apply IH.
Qed.

Lemma exact_pass_length (papers : list Paper) :
  length (drop_duplicates (filter (λ p, notna p) papers) ++ filter (λ p, isna p) papers)
  ≤ length papers
  ∧ (length (drop_duplicates (filter (λ p, notna p) papers) ++ filter (λ p, isna p) papers)
     = length papers ↔ NoDup (dois papers)).
Proof.
  pose proof (Permutation_length (notna_isna_permutation papers)) as Hlen.
  rewrite length_app in Hlen. rewrite length_app.
  pose proof (drop_duplicates_from_length [] (filter (λ p, notna p) papers)) as Hle.
  unfold drop_duplicates. split; [lia|]. split.
  - intros Heq.
    assert (NoDup (doi <$> filter (λ p, notna p) papers)) as Hnodup.
    { rewrite <- (drop_duplicates_from_full [] (filter (λ p, notna p) papers)) by lia.
      apply drop_duplicates_from_nodup. }
    rewrite doi_filter_notna in Hnodup. by apply (NoDup_fmap_1 Some).
  - intros Hnodup. rewrite drop_duplicates_from_id; [done| |].
    + rewrite doi_filter_notna. apply NoDup_fmap_2; [apply _|done].
    + intros p _. apply not_elem_of_nil.
Qed.

(** The driver of DBLP writes both files from the same list, and only
    the CSV file is deduplicated: the bibliography has one entry for
    each collected paper, and the frame has as many rows as there are
    papers exactly when no DOI occurs twice. *)
Theorem dblp_bibliography_keeps_duplicates (now : string) (all_papers : list Paper) :
  all_papers ≠ [] →
  ∃ final_df,
    export_dblp now all_papers true
    = mkExported (Some final_df)
                 (Some (bibtex_header now all_papers
                        +:+ concat_str (issued_entries all_papers ∅)))
                 (Ok final_df)
    ∧ length (issued_entries all_papers ∅) = length all_papers
    ∧ length final_df ≤ length all_papers
    ∧ (length final_df = length all_papers ↔ NoDup (dois all_papers)).
Proof.
  intros Hne. unfold export_dblp, export_with.
  rewrite save_results_to_csv_ok by done.
  unfold save_bibtex. simpl. rewrite save_bibtex_loop_text.
  destruct all_papers as [|p l]; [done|].
  eexists. split; [done|]. split; [apply length_issued_entries|].
  apply exact_pass_length.
Qed.

Lemma dblp_bibliography_keeps_duplicates_witness :
  ∃ final_df,
    export_dblp "2024-01-01 00:00:00" [with_doi "10.1/a" "One"; with_doi "10.1/a" "Two"] true
    = mkExported (Some final_df)
                 (Some (bibtex_header "2024-01-01 00:00:00"
                                      [with_doi "10.1/a" "One"; with_doi "10.1/a" "Two"]
                        +:+ concat_str (issued_entries
                                          [with_doi "10.1/a" "One"; with_doi "10.1/a" "Two"] ∅)))
                 (Ok final_df)
    ∧ length (issued_entries [with_doi "10.1/a" "One"; with_doi "10.1/a" "Two"] ∅)
      = length [with_doi "10.1/a" "One"; with_doi "10.1/a" "Two"]
    ∧ length final_df ≤ length [with_doi "10.1/a" "One"; with_doi "10.1/a" "Two"]
    ∧ (length final_df = length [with_doi "10.1/a" "One"; with_doi "10.1/a" "Two"]
       ↔ NoDup (dois [with_doi "10.1/a" "One"; with_doi "10.1/a" "Two"])).
Proof. apply dblp_bibliography_keeps_duplicates. discriminate. Defined.
